(** * rag-search: the staged search pipeline and the page fetcher

    A shallow embedding of [services/web.py] and [handlers/rag_search.py].

    - Python [str] is [string]; [int] is [Z]; a relevance score (a finite
      [float], of which the code only ever uses the order) is the rational
      it denotes, [Q], compared with [Qle_bool].
    - A [dict] keyed by identifier or by link is a [gmap string _].
    - A raised exception is the [Raise] branch of [result]; [try]/[except]
      is [try_except].
    - Calls to the collaborators (search provider, semantic index, batch
      fetch) are appended to a log threaded through the handlers. *)

From Stdlib Require Import QArith Ascii String Sorted Lqa.
From stdpp Require Import gmap strings list fin_maps.

Local Open Scope string_scope.
Local Open Scope list_scope.

(** ** Exceptions *)

Inductive exn : Type :=
  | Exception (msg : string)
  | ClientResponseError (msg : string).

(** [str(e)], as interpolated into the error messages. *)
Definition str (e : exn) : string :=
  match e with
  | Exception msg => msg
  | ClientResponseError msg => msg
  end.

Inductive result (A : Type) : Type :=
  | Return (a : A)
  | Raise (e : exn).
Arguments Return {A} a.
Arguments Raise {A} e.

#[export] Instance result_ret : MRet result := fun A a => Return a.
#[export] Instance result_bind : MBind result := fun A B k m =>
  match m with
  | Return a => k a
  | Raise e => Raise e
  end.

(** [try: body  except Exception as e: handler e] *)
Definition try_except {A} (body : result A) (handler : exn -> result A) : result A :=
  match body with
  | Return a => Return a
  | Raise e => handler e
  end.

(** [try: body  except aiohttp.ClientResponseError as e: handler e];
    any other exception keeps propagating. *)
Definition try_except_ClientResponseError {A}
    (body : result A) (handler : exn -> result A) : result A :=
  match body with
  | Return a => Return a
  | Raise (ClientResponseError msg) => handler (ClientResponseError msg)
  | Raise e => Raise e
  end.

(** ** Strings *)

Definition LF : ascii := "010"%char.

(** Left-to-right replacement of the non-overlapping occurrences of a
    non-empty [old] by [new]; [skip] counts the characters of a match
    still to be dropped. *)
Fixpoint replace_from (old new : string) (skip : nat) (s : string) : string :=
  match s with
  | EmptyString => EmptyString
  | String c rest =>
      match skip with
      | S k => replace_from old new k rest
      | O =>
          if String.prefix old s
          then new +:+ replace_from old new (String.length old - 1) rest
          else String c (replace_from old new 0 rest)
      end
  end.

(** [s.replace(old, new)] for a non-empty [old]. *)
Definition str_replace (old new s : string) : string := replace_from old new 0 s.

(** [c in s] *)
Fixpoint mentions (c : ascii) (s : string) : bool :=
  match s with
  | EmptyString => false
  | String c' rest => if decide (c' = c) then true else mentions c rest
  end.

Module Web.

(** What [session.get(url)] hands back once the request went through. *)
Record response : Type := {
  raise_for_status : result unit;
  text : result string
}.

(** The network as seen through the [aiohttp] session, and the
    [html2text] converter ([HTML2Text().handle], links and images
    ignored). *)
Record env : Type := {
  session_get : string -> result response;
  handle : string -> result string
}.

(** The pattern of [re.sub(r'\n{2,n}', '\n', markdown)].  [{2,n}] has no
    numeric upper bound, so [re] does not read it as a repetition: the
    pattern is the six literal characters line feed, [{], [2], [,], [n],
    [}]. *)
Definition pattern : string := String LF "{2,n}".

Definition re_sub (markdown : string) : string :=
  str_replace pattern (String LF "") markdown.

Section Fetch.
Context (session : env).

Definition fetch_url (url : string) : result string :=
  response ← session_get session url;
  try_except
    (_ ← raise_for_status response;
     html ← text response;
     Return html)
    (fun e => Return "").

Definition html_to_markdown (html : string) : result string :=
  try_except
    (markdown ← handle session html;
     Return markdown)
    (fun e => Return "").

Definition fetch_markdown (url : string) : result (string * string) :=
  try_except
    (html ← fetch_url url;
     markdown ← html_to_markdown html;
     let markdown := re_sub markdown in
     Return (url, markdown))
    (fun e => Return (url, "")).

(** [asyncio.gather( *tasks, return_exceptions=False)]: the outcomes in
    task order, or the exception of a task that raised. *)
Fixpoint gather {A} (tasks : list (result A)) : result (list A) :=
  match tasks with
  | [] => Return []
  | task :: tasks =>
      a ← task;
      rest ← gather tasks;
      Return (a :: rest)
  end.

(** The client session is the one of [env]: opening it is not a step
    that fails here. *)
Definition batch_fetch_urls (urls : list string) : result (list (string * string)) :=
  try_except_ClientResponseError
    (let tasks := (fun url => fetch_markdown url) <$> urls in
     results ← gather tasks;
     Return results)
    (fun e => Return []).
End Fetch.

End Web.

(** ** Python's [sorted(..., key=..., reverse=True)] *)

Definition Qlt_bool (x y : Q) : bool := negb (Qle_bool y x).

Section Sorted.
Context {A : Type} (key : A -> Q).

(** [x] stood before every element of [l] in the input: it goes behind
    the strictly larger keys and in front of everything else. *)
Fixpoint insert_reverse (x : A) (l : list A) : list A :=
  match l with
  | [] => [x]
  | y :: l' =>
      if Qlt_bool (key x) (key y) then y :: insert_reverse x l'
      else x :: y :: l'
  end.

(** A stable sort, largest key first. *)
Fixpoint sorted_reverse (l : list A) : list A :=
  match l with
  | [] => []
  | x :: l' => insert_reverse x (sorted_reverse l')
  end.
End Sorted.

Module Match.
(** Modelled from the spec: one entry of what
    [services.document.query.query_results] returns, a module that is not
    part of the sources.  The handlers read the keys ["uuid"], ["score"]
    and ["content"] of an entry, which the interface of the semantic
    index lists as identifier, score and content. *)
Record t : Type := {
  uuid : string;
  score : Q;
  content : string
}.
End Match.

Module RagSearch.

(** Modelled from the spec: one search result, a dictionary built by
    [services.search.serper.get_search_results], a module that is not part
    of the sources.  The fields are the keys the handlers read.
    ["content"] is the only key they test for before reading it; the
    others, ["score"] included, are read straight after the search (by
    [fetch_details], as in [test]), so a result carries them from Stage 1
    on. *)
Record SearchResult : Type := {
  uuid : string;
  title : string;
  link : string;
  snippet : string;
  score : Q;
  content : option string
}.

(** [result["score"] = s] *)
Definition set_score (s : Q) (result : SearchResult) : SearchResult :=
  {| uuid := uuid result; title := title result; link := link result;
     snippet := snippet result; score := s; content := content result |}.

(** [result["content"] = c] *)
Definition set_content (c : string) (result : SearchResult) : SearchResult :=
  {| uuid := uuid result; title := title result; link := link result;
     snippet := snippet result; score := score result; content := Some c |}.

(** The request body.  Of the fields declared [Optional], [locale] is
    modelled with its [None]; the others stand at the values a request
    gives them. *)
Record RagSearchReq : Type := {
  query : string;
  locale : option string;
  search_n : Z;
  search_provider : string;
  is_reranking : bool;
  is_detail : bool;
  detail_top_k : Z;
  detail_min_score : Q;
  is_filter : bool;
  filter_min_score : Q;
  filter_top_k : Z
}.

(** The [params] dictionary of [search]. *)
Record params : Type := {
  q : string;
  num : Z;
  hl : option string
}.

Inductive response : Type :=
  | resp_err (msg : string)
  | resp_data (search_results : list SearchResult).

(** The collaborators of the handlers, none of them part of the sources,
    and the process environment ([os.getenv("AUTH_API_KEY")]).  A
    collaborator answers or raises; it does not write to the results it
    is passed. *)
Record collaborators : Type := {
  index : Type;
  AUTH_API_KEY : option string;
  get_search_results : params -> result (list SearchResult);
  store_results : list SearchResult -> result index;
  query_results : index -> string -> Q -> Z -> result (list Match.t);
  session : Web.env
}.

(** A call that leaves the handlers. *)
Inductive event : Type :=
  | CallSearch (p : params)
  | CallStore (results : list SearchResult)
  | CallQuery (query : string) (min_score : Q) (top_k : Z)
  | CallBatchFetch (urls : list string).

(** Handlers thread the log of calls made so far. *)
Definition M (A : Type) : Type := list event -> A * list event.

#[export] Instance M_ret : MRet M := fun A a log => (a, log).
#[export] Instance M_bind : MBind M := fun A B k m log =>
  let (a, log') := m log in k a log'.

Definition call {A} (ev : event) (outcome : A) : M A :=
  fun log => (outcome, log ++ [ev]).

(** Two statements in a row inside one [try] block. *)
Definition and_then {A B} (m : M (result A)) (k : A -> M (result B)) : M (result B) :=
  r ← m;
  match r with
  | Return a => k a
  | Raise e => mret (Raise e)
  end.

(** How a stage ends.  The stage shares the dictionaries of the list it
    is given and updates them in place, so when it raises, the caller's
    list holds whatever the stage had written by then. *)
Inductive outcome : Type :=
  | Returned (search_results : list SearchResult)
  | Raised (e : exn) (search_results : list SearchResult).

(** What [search_results] holds after
    [try: search_results = stage(search_results, ...)
     except Exception as e: print(...)]. *)
Definition carry_on (o : outcome) : list SearchResult :=
  match o with
  | Returned search_results => search_results
  | Raised _ search_results => search_results
  end.

Definition attempt (stage : M outcome) : M (list SearchResult) :=
  o ← stage;
  mret (carry_on o).

(** Truth value of an optional string. *)
Definition truthy (s : option string) : bool :=
  match s with
  | Some (String _ _) => true
  | _ => false
  end.

Definition len {A} (l : list A) : Z := Z.of_nat (length l).
Definition str_len (s : string) : Z := Z.of_nat (String.length s).

Section Handlers.
Context (C : collaborators).

Definition search (query : string) (num : Z) (locale : option string)
  : M (result (list SearchResult)) :=
  let params := {| q := query; num := num; hl := None |} in
  let params :=
    if truthy locale then {| q := q params; num := RagSearch.num params; hl := locale |}
    else params in
  call (CallSearch params) (get_search_results C params).

(** The first loop of [reranking]: a later match overwrites an earlier one. *)
Definition score_maps_of (match_results : list Match.t) : gmap string Q :=
  foldl (fun score_maps result => <[Match.uuid result := Match.score result]> score_maps)
        ∅ match_results.

Definition rescore (score_maps : gmap string Q) (result : SearchResult) : SearchResult :=
  match score_maps !! uuid result with
  | Some s => set_score s result
  | None => result
  end.

Definition reranking (search_results : list SearchResult) (query : string) : M outcome :=
  matched ← and_then
    (call (CallStore search_results) (store_results C search_results))
    (fun index =>
       call (CallQuery query 0 (len search_results))
            (query_results C index query 0 (len search_results)));
  match matched with
  | Raise e => mret (Raised e search_results)
  | Return match_results =>
      let score_maps := score_maps_of match_results in
      let search_results := rescore score_maps <$> search_results in
      let sorted_search_results := sorted_reverse score search_results in
      mret (Returned sorted_search_results)
  end.

(** The candidate loop of [fetch_details]. *)
Fixpoint select_urls (min_score : Q) (top_k : Z) (urls : list string)
    (search_results : list SearchResult) : list string :=
  match search_results with
  | [] => urls
  | res :: search_results =>
      if (len urls >? top_k)%Z then urls
      else if Qle_bool min_score (score res)
           then select_urls min_score top_k (urls ++ [link res]) search_results
           else select_urls min_score top_k urls search_results
  end.

(** The link-to-content dictionary of [fetch_details]. *)
Definition content_maps_of_details (details : list (string * string)) : gmap string string :=
  foldl (fun content_maps '(url, content) => <[url := content]> content_maps) ∅ details.

Definition attach (content_maps : gmap string string) (key : SearchResult -> string)
    (result : SearchResult) : SearchResult :=
  match content_maps !! key result with
  | Some c => set_content c result
  | None => result
  end.

Definition fetch_details (search_results : list SearchResult) (min_score : Q) (top_k : Z)
  : M outcome :=
  let urls := select_urls min_score top_k [] search_results in
  fetched ← call (CallBatchFetch urls) (Web.batch_fetch_urls (session C) urls);
  match fetched with
  | Raise e => mret (Raised e search_results)
  | Return details =>
      let content_maps := content_maps_of_details details in
      let search_results := attach content_maps link <$> search_results in
      mret (Returned search_results)
  end.

(** ["content" in result and len(result["content"]) > len(result["snippet"])],
    for texts whose characters are one element of [string] each. *)
Definition has_content (result : SearchResult) : bool :=
  match content result with
  | Some c => (str_len c >? str_len (snippet result))%Z
  | None => false
  end.

(** The accumulation loop of [filter_content]. *)
Definition content_maps_of_matches (match_results : list Match.t) : gmap string string :=
  foldl (fun content_maps result =>
           match content_maps !! Match.uuid result with
           | None => <[Match.uuid result := ""]> content_maps
           | Some acc => <[Match.uuid result := acc +:+ Match.content result]> content_maps
           end)
        ∅ match_results.

Definition filter_content (search_results : list SearchResult) (query : string)
    (filter_min_score : Q) (filter_top_k : Z) : M outcome :=
  let results_with_content := filter (fun result => has_content result = true) search_results in
  matched ← and_then
    (call (CallStore results_with_content) (store_results C results_with_content))
    (fun index =>
       call (CallQuery query filter_min_score filter_top_k)
            (query_results C index query filter_min_score filter_top_k));
  match matched with
  | Raise e => mret (Raised e search_results)
  | Return match_results =>
      let content_maps := content_maps_of_matches match_results in
      let search_results := attach content_maps uuid <$> search_results in
      mret (Returned search_results)
  end.

(** The key presented by the caller. *)
Definition api_key (authorization : option string) : string :=
  if truthy authorization
  then str_replace "Bearer " "" (default "" authorization)
  else "".

(** The outermost [try] of the handler has nothing left to catch: every
    stage is wrapped on its own, and building the response does not
    raise. *)
Definition rag_search (req : RagSearchReq) (authorization : option string) : M response :=
  let authApiKey := AUTH_API_KEY C in
  let apiKey := api_key authorization in
  if decide (Some apiKey ≠ authApiKey) then mret (resp_err "Access Denied")
  else if decide (query req = "") then mret (resp_err "invalid params")
  else
    found ← search (query req) (search_n req) (locale req);
    match found with
    | Raise e => mret (resp_err ("get search results failed: " +:+ str e))
    | Return search_results =>
        search_results ←
          (if is_reranking req
           then attempt (reranking search_results (query req))
           else mret search_results);
        search_results ←
          (if is_detail req
           then attempt (fetch_details search_results (detail_min_score req) (detail_top_k req))
           else mret search_results);
        search_results ←
          (if is_filter req
           then attempt (filter_content search_results (query req)
                                        (filter_min_score req) (filter_top_k req))
           else mret search_results);
        mret (resp_data search_results)
    end.
End Handlers.

(** The same request with the Rerank stage switched off. *)
Definition without_reranking (req : RagSearchReq) : RagSearchReq :=
  {| query := query req; locale := locale req; search_n := search_n req;
     search_provider := search_provider req; is_reranking := false;
     is_detail := is_detail req; detail_top_k := detail_top_k req;
     detail_min_score := detail_min_score req; is_filter := is_filter req;
     filter_min_score := filter_min_score req; filter_top_k := filter_top_k req |}.

(** The defaults of [RagSearchReq]: a request that sets the query only. *)
Definition RagSearchReq_defaults (query : string) : RagSearchReq :=
  {| query := query; locale := Some ""; search_n := 10; search_provider := "google";
     is_reranking := false; is_detail := false; detail_top_k := 6;
     detail_min_score := 0.70; is_filter := false; filter_min_score := 0.80;
     filter_top_k := 6 |}.

Section Driver.
Context (C : collaborators).

(** [test]: a search for ten results with the default locale, then
    [fetch_details] with its default floor [0.00] and cap [6].  Nothing is
    caught: what either call raises leaves [test].  The query is spelt in
    UTF-8; it is only handed on to the search provider. *)
Definition test : M (result unit) :=
  let query := "Lenvia是谁" in
  found ← search C query 10 (Some "");
  match found with
  | Raise e => mret (Raise e)
  | Return search_results =>
      o ← fetch_details C search_results 0 6;
      match o with
      | Returned _ => mret (Return tt)
      | Raised e _ => mret (Raise e)
      end
  end.
End Driver.

End RagSearch.

(** The texts of a list, joined. *)
Definition joined (texts : list string) : string := foldr String.append "" texts.

(** ** Sample data: a small request against scripted collaborators *)

Module Sample.
Import RagSearch.

Definition two_lines : string := "a" +:+ String LF (String LF "b").

Definition page (html : string) : Web.response :=
  {| Web.raise_for_status := Return tt; Web.text := Return html |}.

(** [https://a] is served, [https://b] answers with an error status,
    nothing else can be reached; the converter is the identity. *)
Definition net : Web.env :=
  {| Web.session_get := fun url =>
       if decide (url = "https://a") then Return (page two_lines)
       else if decide (url = "https://b")
            then Return {| Web.raise_for_status := Raise (ClientResponseError "404");
                           Web.text := Return "" |}
            else Raise (Exception "cannot connect");
     Web.handle := fun html => Return html |}.

(** The same network with a converter that, like [html2text], closes its
    output with a blank line, also for the empty document. *)
Definition net_html2text : Web.env :=
  {| Web.session_get := Web.session_get net;
     Web.handle := fun html => Return (html +:+ String LF (String LF "")) |}.

Definition hit (id url : string) (s : Q) : SearchResult :=
  {| uuid := id; title := "title"; link := url; snippet := "snip";
     score := s; content := None |}.

Definition hits : list SearchResult :=
  [hit "1" "https://a" 0; hit "2" "https://b" 0; hit "3" "https://c" 0].

Definition found (id : string) (s : Q) (c : string) : Match.t :=
  {| Match.uuid := id; Match.score := s; Match.content := c |}.

(** The index answers from the documents it was given: the stored
    results scored by identifier, those below the floor dropped, at most
    [top_k] of them. *)
Definition service : collaborators :=
  {| index := list SearchResult;
     AUTH_API_KEY := Some "secret";
     get_search_results := fun _ => Return hits;
     store_results := fun results => Return results;
     query_results := fun index _ min_score top_k =>
       Return (take (Z.to_nat top_k)
                 (filter (fun m => Qle_bool min_score (Match.score m) = true)
                    ((fun r => found (uuid r) (if decide (uuid r = "2") then 0.9 else 0.5)
                                     (default "" (content r))) <$> index)));
     session := net |}.

(** The same service with the semantic index down. *)
Definition service_index_down : collaborators :=
  {| index := list SearchResult;
     AUTH_API_KEY := Some "secret";
     get_search_results := fun _ => Return hits;
     store_results := fun _ => Raise (Exception "index unavailable");
     query_results := fun _ _ _ _ => Return [];
     session := net |}.

(** The same service started without [AUTH_API_KEY]. *)
Definition service_no_secret : collaborators :=
  {| index := list SearchResult;
     AUTH_API_KEY := None;
     get_search_results := fun _ => Return hits;
     store_results := fun results => Return results;
     query_results := fun _ _ _ _ => Return [];
     session := net |}.

(** A result whose page has been fetched. *)
Definition fetched_hit : SearchResult :=
  {| uuid := "2"; title := "title"; link := "https://b"; snippet := "snip";
     score := 0; content := Some "the whole page" |}.

Definition request : RagSearchReq :=
  {| query := "who"; locale := None; search_n := 10; search_provider := "google";
     is_reranking := true; is_detail := true; detail_top_k := 6;
     detail_min_score := 0; is_filter := false; filter_min_score := 0.8;
     filter_top_k := 6 |}.
End Sample.

(** * Properties *)

(** ** The page fetcher *)

Section WebFacts.
Context (session : Web.env).

Lemma html_to_markdown_returns (html : string) :
  Web.html_to_markdown session html = Return ""
  ∨ ∃ markdown, Web.handle session html = Return markdown
                ∧ Web.html_to_markdown session html = Return markdown.
Proof.
  unfold Web.html_to_markdown.
  destruct (Web.handle session html) as [markdown|e]; cbn; eauto.
Qed.

(** A single fetch always returns its own URL with some content: the
    normalised conversion of what was retrieved, or the empty string. *)
Lemma fetch_markdown_returns (url : string) :
  ∃ c, Web.fetch_markdown session url = Return (url, c)
       ∧ (c = "" ∨ ∃ html markdown,
              Web.handle session html = Return markdown ∧ c = Web.re_sub markdown).
Proof.
  unfold Web.fetch_markdown.
  destruct (Web.fetch_url session url) as [html|e]; cbn; [|eauto].
  destruct (html_to_markdown_returns html) as [-> | (markdown & Hh & ->)]; cbn; eauto 8.
Qed.

Lemma gather_fetch_markdown (urls : list string) :
  ∃ results, Web.gather (Web.fetch_markdown session <$> urls) = Return results
             ∧ Forall2 (fun url r => Web.fetch_markdown session url = Return r) urls results.
Proof.
  induction urls as [|url urls (results & Hg & Hall)]; cbn.
  - exists []. split; [reflexivity | constructor].
  - destruct (fetch_markdown_returns url) as (c & Hc & _).
    exists ((url, c) :: results). rewrite Hc, Hg. cbn. split; [reflexivity|].
    constructor; assumption.
Qed.

Lemma batch_fetch_urls_returns (urls : list string) :
  ∃ results, Web.batch_fetch_urls session urls = Return results
             ∧ Forall2 (fun url r => Web.fetch_markdown session url = Return r) urls results.
Proof.
  destruct (gather_fetch_markdown urls) as (results & Hg & Hall).
  exists results. unfold Web.batch_fetch_urls. cbv zeta.
  change (fun url => Web.fetch_markdown session url) with (Web.fetch_markdown session).
  rewrite Hg. cbn. auto.
Qed.
End WebFacts.

(** The substitution of [fetch_markdown] touches a text only where a line
    feed is followed by an opening brace: runs of line feeds stay. *)
Lemma re_sub_without_brace (markdown : string) :
  mentions "{" markdown = false → Web.re_sub markdown = markdown.
Proof.
  unfold Web.re_sub, str_replace.
  induction markdown as [|c rest IH]; [reflexivity|].
  intros Hm. cbn [mentions] in Hm. case_decide; [discriminate|].
  cbn [replace_from]. unfold Web.pattern at 1. cbn [String.prefix].
  destruct (ascii_dec LF c) as [_|_].
  - destruct rest as [|c' rest']; [reflexivity|].
    cbn [mentions] in Hm. case_decide as Hc'; [discriminate|].
    cbn [String.prefix]. destruct (ascii_dec "{"%char c') as [Hb|_]; [congruence|].
    f_equal. apply IH. cbn [mentions]. case_decide; [congruence | assumption].
  - f_equal. auto.
Qed.

(** C2, evaluated: a page whose conversion is [a], two line feeds, [b]
    comes back from [fetch_markdown] with both line feeds still there;
    the run of two line breaks has not been collapsed to one. *)
Lemma fetch_markdown_keeps_blank_line :
  Web.fetch_markdown Sample.net "https://a"
  = Return ("https://a", "a" +:+ String LF (String LF "b")).
Proof. reflexivity. Qed.

(** C7, evaluated: [https://b] answers with an error status and
    [https://c] cannot be reached.  The batch returns a pair for each, in
    order, and does not raise; the unreachable URL comes back with the
    empty string, but the URL with the error status comes back with two
    line feeds, what the converter makes of the empty document: neither a
    fetched content nor the empty string. *)
Lemma batch_fetch_urls_error_status :
  Web.batch_fetch_urls Sample.net_html2text ["https://b"; "https://c"]
  = Return [("https://b", String LF (String LF "")); ("https://c", "")]
  ∧ (∃ r e, Web.session_get Sample.net_html2text "https://b" = Return r
            ∧ Web.raise_for_status r = Raise e)
  ∧ String LF (String LF "") ≠ "".
Proof.
  split; [reflexivity|]. split; [|discriminate].
  eexists _, _. split; reflexivity.
Qed.

(** ** Sorting, largest key first *)

(** Five results scored 0.9, 0.1, 0.5, 0.3, 0.7 come out by descending
    score. *)
Example sorted_reverse_five :
  RagSearch.uuid <$> sorted_reverse RagSearch.score
    [Sample.hit "1" "l1" 0.9; Sample.hit "2" "l2" 0.1; Sample.hit "3" "l3" 0.5;
     Sample.hit "4" "l4" 0.3; Sample.hit "5" "l5" 0.7]
  = ["1"; "5"; "3"; "4"; "2"].
Proof. reflexivity. Qed.

(** Equal scores keep their order. *)
Example sorted_reverse_ties :
  RagSearch.uuid <$> sorted_reverse RagSearch.score
    [Sample.hit "1" "l1" 0.5; Sample.hit "2" "l2" (1 # 2); Sample.hit "3" "l3" 0.7;
     Sample.hit "4" "l4" 0.5]
  = ["3"; "1"; "2"; "4"].
Proof. reflexivity. Qed.

Lemma Qlt_bool_true (x y : Q) : Qlt_bool x y = true → (x < y)%Q.
Proof.
  unfold Qlt_bool. intros H. apply negb_true_iff in H.
  apply Qnot_le_lt. intros Hle. apply Qle_bool_iff in Hle. congruence.
Qed.

Lemma Qlt_bool_false (x y : Q) : Qlt_bool x y = false → (y <= x)%Q.
Proof.
  unfold Qlt_bool. intros H. apply negb_false_iff in H. apply Qle_bool_iff, H.
Qed.

Section SortedFacts.
Context {A : Type} (key : A → Q).

(** [a] may stand before [b] in a list sorted by [key], largest first. *)
Local Abbreviation before := (fun a b : A => (key b <= key a)%Q).

(** [x] carries the key [s]. *)
Local Abbreviation keyed s := (fun x : A => Qeq_bool (key x) s = true).

Lemma insert_reverse_perm (x : A) (l : list A) : insert_reverse key x l ≡ₚ x :: l.
Proof.
  induction l as [|y l IH]; cbn; [reflexivity|].
  destruct (Qlt_bool (key x) (key y)); [|reflexivity].
  rewrite IH. apply Permutation_swap.
Qed.

Lemma sorted_reverse_perm (l : list A) : sorted_reverse key l ≡ₚ l.
Proof.
  induction l as [|x l IH]; cbn; [reflexivity|].
  rewrite insert_reverse_perm, IH. reflexivity.
Qed.

Lemma insert_reverse_sorted (x : A) (l : list A) :
  StronglySorted before l → StronglySorted before (insert_reverse key x l).
Proof.
  induction 1 as [|y l Hl IH Hy]; cbn.
  - repeat constructor.
  - destruct (Qlt_bool (key x) (key y)) eqn:Hxy.
    + constructor; [exact IH|].
      rewrite insert_reverse_perm. constructor; [|exact Hy].
      apply Qlt_le_weak, Qlt_bool_true, Hxy.
    + apply Qlt_bool_false in Hxy.
      constructor; [constructor; assumption|].
      constructor; [exact Hxy|].
      eapply Forall_impl; [exact Hy|].
      intros z Hz. cbn in *. eapply Qle_trans; eassumption.
Qed.

Lemma sorted_reverse_sorted (l : list A) : StronglySorted before (sorted_reverse key l).
Proof.
  induction l as [|x l IH]; cbn; [constructor|].
  apply insert_reverse_sorted, IH.
Qed.

Lemma insert_reverse_stable (s : Q) (x : A) (l : list A) :
  filter (keyed s) (insert_reverse key x l) = filter (keyed s) (x :: l).
Proof.
  induction l as [|y l IH]; cbn [insert_reverse]; [reflexivity|].
  destruct (Qlt_bool (key x) (key y)) eqn:Hxy; [|reflexivity].
  apply Qlt_bool_true in Hxy.
  rewrite (filter_cons _ y), IH, !(filter_cons _ x), (filter_cons _ y).
  destruct (decide (keyed s x)) as [Hx|Hx], (decide (keyed s y)) as [Hy|Hy];
    try reflexivity.
  cbn in Hx, Hy. apply Qeq_bool_iff in Hx, Hy.
  rewrite Hx, Hy in Hxy. exfalso. exact (Qlt_irrefl _ Hxy).
Qed.

Lemma sorted_reverse_stable (s : Q) (l : list A) :
  filter (keyed s) (sorted_reverse key l) = filter (keyed s) l.
Proof.
  induction l as [|x l IH]; cbn [sorted_reverse]; [reflexivity|].
  rewrite insert_reverse_stable, !(filter_cons _ x), IH. reflexivity.
Qed.
End SortedFacts.

(** ** The stages, run *)

Section StageFacts.
Import RagSearch.
Context (C : collaborators).

Lemma reranking_run (search_results : list SearchResult) (query : string) (log : list event) :
  reranking C search_results query log =
  match store_results C search_results with
  | Raise e => (Raised e search_results, log ++ [CallStore search_results])
  | Return index =>
      let log' := log ++ [CallStore search_results; CallQuery query 0 (len search_results)] in
      match query_results C index query 0 (len search_results) with
      | Raise e => (Raised e search_results, log')
      | Return match_results =>
          (Returned (sorted_reverse score
                       (rescore (score_maps_of match_results) <$> search_results)), log')
      end
  end.
Proof.
  unfold reranking, and_then, call, mbind, M_bind, mret, M_ret.
  destruct (store_results C search_results) as [index|e]; [|reflexivity].
  rewrite <- app_assoc.
  destruct (query_results C index query 0 (len search_results)); reflexivity.
Qed.

Lemma fetch_details_run (search_results : list SearchResult) (min_score : Q) (top_k : Z)
    (log : list event) :
  fetch_details C search_results min_score top_k log =
  let urls := select_urls min_score top_k [] search_results in
  (match Web.batch_fetch_urls (session C) urls with
   | Raise e => Raised e search_results
   | Return details =>
       Returned (attach (content_maps_of_details details) link <$> search_results)
   end, log ++ [CallBatchFetch urls]).
Proof.
  unfold fetch_details, call, mbind, M_bind, mret, M_ret. cbv zeta.
  destruct (Web.batch_fetch_urls _ _); reflexivity.
Qed.

Lemma filter_content_run (search_results : list SearchResult) (query : string)
    (filter_min_score : Q) (filter_top_k : Z) (log : list event) :
  filter_content C search_results query filter_min_score filter_top_k log =
  let results_with_content := filter (fun result => has_content result = true) search_results in
  match store_results C results_with_content with
  | Raise e => (Raised e search_results, log ++ [CallStore results_with_content])
  | Return index =>
      let log' := log ++ [CallStore results_with_content;
                          CallQuery query filter_min_score filter_top_k] in
      match query_results C index query filter_min_score filter_top_k with
      | Raise e => (Raised e search_results, log')
      | Return match_results =>
          (Returned (attach (content_maps_of_matches match_results) uuid <$> search_results),
           log')
      end
  end.
Proof.
  unfold filter_content, and_then, call, mbind, M_bind, mret, M_ret. cbv zeta.
  destruct (store_results C _) as [index|e]; [|reflexivity].
  rewrite <- app_assoc.
  destruct (query_results C index query filter_min_score filter_top_k); reflexivity.
Qed.

(** What a stage answers does not depend on the calls logged before it. *)
Lemma reranking_log (search_results : list SearchResult) (query : string) (log log' : list event) :
  (reranking C search_results query log).1 = (reranking C search_results query log').1.
Proof.
  rewrite !reranking_run.
  destruct (store_results C search_results) as [index|e]; [|reflexivity].
  cbv zeta. destruct (query_results C index query 0 (len search_results)); reflexivity.
Qed.

Lemma fetch_details_log (search_results : list SearchResult) (min_score : Q) (top_k : Z)
    (log log' : list event) :
  (fetch_details C search_results min_score top_k log).1
  = (fetch_details C search_results min_score top_k log').1.
Proof. rewrite !fetch_details_run. reflexivity. Qed.

Lemma filter_content_log (search_results : list SearchResult) (query : string)
    (filter_min_score : Q) (filter_top_k : Z) (log log' : list event) :
  (filter_content C search_results query filter_min_score filter_top_k log).1
  = (filter_content C search_results query filter_min_score filter_top_k log').1.
Proof.
  rewrite !filter_content_run. cbv zeta.
  destruct (store_results C _) as [index|e]; [|reflexivity].
  destruct (query_results C index query filter_min_score filter_top_k); reflexivity.
Qed.

Lemma rescore_fields (score_maps : gmap string Q) (result : SearchResult) :
  rescore score_maps result = set_score (score (rescore score_maps result)) result.
Proof.
  unfold rescore. destruct (score_maps !! uuid result); [reflexivity|].
  destruct result; reflexivity.
Qed.
End StageFacts.

(** C4: whenever Rerank returns, what it returns is a rearrangement of the
    input results after re-scoring (each differing from the input result
    at the same position in its score at most), it is sorted by score,
    largest first, and results of equal score stand in their original
    relative order. *)
Theorem reranking_sorted_permutation (C : RagSearch.collaborators)
    (search_results : list RagSearch.SearchResult) (query : string)
    (log : list RagSearch.event) (sorted_search_results : list RagSearch.SearchResult) :
  (RagSearch.reranking C search_results query log).1 = RagSearch.Returned sorted_search_results →
  ∃ rescored,
    Forall2 (fun r r' => r' = RagSearch.set_score (RagSearch.score r') r) search_results rescored
    ∧ sorted_search_results ≡ₚ rescored
    ∧ StronglySorted (fun a b => (RagSearch.score b <= RagSearch.score a)%Q) sorted_search_results
    ∧ ∀ s, filter (fun r => Qeq_bool (RagSearch.score r) s = true) sorted_search_results
           = filter (fun r => Qeq_bool (RagSearch.score r) s = true) rescored.
Proof.
  rewrite reranking_run.
  destruct (RagSearch.store_results C search_results) as [index|e]; [|discriminate].
  cbv zeta.
  destruct (RagSearch.query_results C index query 0 _) as [match_results|e]; [|discriminate].
  cbn. intros [= <-].
  exists (RagSearch.rescore (RagSearch.score_maps_of match_results) <$> search_results).
  split; [|split; [|split]].
  - apply Forall2_fmap_r, Forall_Forall2_diag, Forall_forall.
    intros r _. apply rescore_fields.
  - apply sorted_reverse_perm.
  - apply sorted_reverse_sorted.
  - intros s. apply sorted_reverse_stable.
Qed.

Lemma reranking_sorted_permutation_witness :
  ∃ rescored,
    Forall2 (fun r r' => r' = RagSearch.set_score (RagSearch.score r') r) Sample.hits rescored
    ∧ [Sample.hit "2" "https://b" 0.9; Sample.hit "1" "https://a" 0.5;
       Sample.hit "3" "https://c" 0.5] ≡ₚ rescored
    ∧ StronglySorted (fun a b => (RagSearch.score b <= RagSearch.score a)%Q)
        [Sample.hit "2" "https://b" 0.9; Sample.hit "1" "https://a" 0.5;
         Sample.hit "3" "https://c" 0.5]
    ∧ ∀ s, filter (fun r => Qeq_bool (RagSearch.score r) s = true)
             [Sample.hit "2" "https://b" 0.9; Sample.hit "1" "https://a" 0.5;
              Sample.hit "3" "https://c" 0.5]
           = filter (fun r => Qeq_bool (RagSearch.score r) s = true) rescored.
Proof.
  apply (reranking_sorted_permutation Sample.service Sample.hits "who" []).
  vm_compute. reflexivity.
Defined.

(** ** Detail-Fetch *)

Section DetailFacts.
Import RagSearch.

Lemma select_urls_from (min_score : Q) (top_k : Z) (search_results : list SearchResult) :
  ∀ urls,
    select_urls min_score top_k urls search_results
    = urls ++ take (Z.to_nat (top_k + 1) - length urls)
                (link <$> filter (fun res => Qle_bool min_score (score res) = true) search_results).
Proof.
  induction search_results as [|res rest IH]; intros urls; cbn [select_urls].
  - rewrite filter_nil. cbn. rewrite take_nil, app_nil_r. reflexivity.
  - unfold len. destruct (Z.gtb_spec (Z.of_nat (length urls)) top_k) as [Hgt|Hle].
    + replace (Z.to_nat (top_k + 1) - length urls) with 0 by lia.
      rewrite take_0, app_nil_r. reflexivity.
    + rewrite filter_cons. destruct (Qle_bool min_score (score res)) eqn:Hq.
      * rewrite decide_True by reflexivity. rewrite IH, length_app. cbn.
        replace (Z.to_nat (top_k + 1) - length urls)
          with (S (Z.to_nat (top_k + 1) - (length urls + 1))) by lia.
        rewrite <- app_assoc. reflexivity.
      * rewrite decide_False by discriminate. apply IH.
Qed.

Lemma attach_fields (content_maps : gmap string string) (key : SearchResult → string)
    (result : SearchResult) :
  let result' := attach content_maps key result in
  uuid result' = uuid result ∧ title result' = title result ∧ link result' = link result
  ∧ snippet result' = snippet result ∧ score result' = score result
  ∧ content result' = match content_maps !! key result with
                      | Some c => Some c
                      | None => content result
                      end.
Proof. unfold attach. destruct (content_maps !! key result); cbn; auto 10. Qed.

Lemma attach_frame {B} (field : SearchResult → B) (content_maps : gmap string string)
    (key : SearchResult → string) (search_results : list SearchResult) :
  (∀ result, field (attach content_maps key result) = field result) →
  field <$> (attach content_maps key <$> search_results) = field <$> search_results.
Proof.
  intros Hf. rewrite <- list_fmap_compose. apply list_fmap_ext.
  intros i result _. apply Hf.
Qed.
End DetailFacts.

(** C3: the links handed to the batch fetch are those of the first
    [top_k + 1] results, in list order, whose score is at least
    [min_score]: never more than [top_k + 1] of them, and exactly
    [top_k + 1] when that many results qualify. *)
Theorem fetch_details_selects (C : RagSearch.collaborators)
    (search_results : list RagSearch.SearchResult) (min_score : Q) (top_k : Z)
    (log : list RagSearch.event) :
  (-1 <= top_k)%Z →
  let qualifying :=
    filter (fun res => Qle_bool min_score (RagSearch.score res) = true) search_results in
  ∃ urls,
    (RagSearch.fetch_details C search_results min_score top_k log).2
      = log ++ [RagSearch.CallBatchFetch urls]
    ∧ urls = take (Z.to_nat (top_k + 1)) (RagSearch.link <$> qualifying)
    ∧ (RagSearch.len urls <= top_k + 1)%Z
    ∧ ((top_k + 1 <= RagSearch.len qualifying)%Z → RagSearch.len urls = (top_k + 1)%Z).
Proof.
  intros Hk qualifying.
  exists (RagSearch.select_urls min_score top_k [] search_results).
  rewrite fetch_details_run. cbv zeta. split; [reflexivity|].
  rewrite select_urls_from. cbn [app length]. rewrite Nat.sub_0_r.
  fold qualifying. unfold RagSearch.len.
  rewrite length_take, length_fmap. repeat split; lia.
Qed.

Lemma fetch_details_selects_witness :
  ∃ urls,
    (RagSearch.fetch_details Sample.service Sample.hits 0 1 []).2
      = [RagSearch.CallBatchFetch urls]
    ∧ urls = ["https://a"; "https://b"]
    ∧ (RagSearch.len urls <= 2)%Z
    ∧ ((2 <= 3)%Z → RagSearch.len urls = 2%Z).
Proof.
  apply (fetch_details_selects Sample.service Sample.hits 0 1 []). lia.
Defined.

(** C5: whenever Detail-Fetch returns, the identifiers, titles, links,
    snippets and scores come back in the same sequence as they went in, so
    nothing is moved or dropped; a result's content is the content fetched
    for its link when the batch outcome has that link, and is what it was
    otherwise. *)
Theorem fetch_details_frame (C : RagSearch.collaborators)
    (search_results : list RagSearch.SearchResult) (min_score : Q) (top_k : Z)
    (log : list RagSearch.event) (out : list RagSearch.SearchResult) :
  (RagSearch.fetch_details C search_results min_score top_k log).1 = RagSearch.Returned out →
  RagSearch.link <$> out = RagSearch.link <$> search_results
  ∧ RagSearch.title <$> out = RagSearch.title <$> search_results
  ∧ RagSearch.snippet <$> out = RagSearch.snippet <$> search_results
  ∧ RagSearch.score <$> out = RagSearch.score <$> search_results
  ∧ RagSearch.uuid <$> out = RagSearch.uuid <$> search_results
  ∧ ∃ details,
      Web.batch_fetch_urls (RagSearch.session C)
        (RagSearch.select_urls min_score top_k [] search_results) = Return details
      ∧ Forall2 (fun r r' =>
                   RagSearch.content r' =
                   match RagSearch.content_maps_of_details details !! RagSearch.link r with
                   | Some c => Some c
                   | None => RagSearch.content r
                   end) search_results out.
Proof.
  rewrite fetch_details_run. cbv zeta. cbn [fst].
  destruct (Web.batch_fetch_urls _ _) as [details|e]; [|discriminate].
  intros [= <-].
  repeat (split; [apply attach_frame; intros result; apply attach_fields|]).
  exists details. split; [reflexivity|].
  apply Forall2_fmap_r, Forall_Forall2_diag, Forall_forall.
  intros r _. apply attach_fields.
Qed.

Lemma fetch_details_frame_witness :
  let out := [RagSearch.set_content Sample.two_lines (Sample.hit "1" "https://a" 0);
              RagSearch.set_content "" (Sample.hit "2" "https://b" 0);
              Sample.hit "3" "https://c" 0] in
  RagSearch.link <$> out = RagSearch.link <$> Sample.hits
  ∧ RagSearch.title <$> out = RagSearch.title <$> Sample.hits
  ∧ RagSearch.snippet <$> out = RagSearch.snippet <$> Sample.hits
  ∧ RagSearch.score <$> out = RagSearch.score <$> Sample.hits
  ∧ RagSearch.uuid <$> out = RagSearch.uuid <$> Sample.hits
  ∧ ∃ details,
      Web.batch_fetch_urls Sample.net (RagSearch.select_urls 0 1 [] Sample.hits) = Return details
      ∧ Forall2 (fun r r' =>
                   RagSearch.content r' =
                   match RagSearch.content_maps_of_details details !! RagSearch.link r with
                   | Some c => Some c
                   | None => RagSearch.content r
                   end) Sample.hits out.
Proof.
  apply (fetch_details_frame Sample.service Sample.hits 0 1 []). vm_compute. reflexivity.
Defined.

(** ** Filter *)

Lemma append_empty_r (s : string) : s +:+ "" = s.
Proof.
  induction s as [|c s IH]; [reflexivity|].
  change (String c (s +:+ "") = String c s). rewrite IH. reflexivity.
Qed.

Lemma append_assoc (s t u : string) : (s +:+ t) +:+ u = s +:+ (t +:+ u).
Proof.
  induction s as [|c s IH]; [reflexivity|].
  change (String c ((s +:+ t) +:+ u) = String c (s +:+ (t +:+ u))).
  rewrite IH. reflexivity.
Qed.

Section FilterFacts.
Import RagSearch.

Local Abbreviation step := (fun (content_maps : gmap string string) result =>
  match content_maps !! Match.uuid result with
  | None => <[Match.uuid result := ""]> content_maps
  | Some acc => <[Match.uuid result := acc +:+ Match.content result]> content_maps
  end).

Lemma accumulate_from (match_results : list Match.t) :
  ∀ (content_maps : gmap string string) (id : string),
    foldl step content_maps match_results !! id =
    match content_maps !! id with
    | Some acc =>
        Some (acc +:+ joined (Match.content <$>
                                filter (fun m => Match.uuid m = id) match_results))
    | None =>
        match filter (fun m => Match.uuid m = id) match_results with
        | [] => None
        | _ :: later => Some (joined (Match.content <$> later))
        end
    end.
Proof.
  induction match_results as [|m rest IH]; intros content_maps id.
  - cbn. destruct (content_maps !! id); [rewrite append_empty_r|]; reflexivity.
  - cbn [foldl]. rewrite IH, filter_cons. clear IH.
    destruct (decide (Match.uuid m = id)) as [<-|Hne].
    + destruct (content_maps !! Match.uuid m) as [acc|] eqn:Hacc.
      * rewrite lookup_insert_eq. cbn. rewrite append_assoc. reflexivity.
      * rewrite lookup_insert_eq. reflexivity.
    + destruct (content_maps !! Match.uuid m);
        rewrite lookup_insert_ne by exact Hne; reflexivity.
Qed.

(** What the accumulation loop of [filter_content] leaves under an
    identifier: nothing when no match carries it, otherwise the contents
    of its matches after the first, joined in match order. *)
Lemma content_maps_of_matches_lookup (match_results : list Match.t) (id : string) :
  content_maps_of_matches match_results !! id =
  match filter (fun m => Match.uuid m = id) match_results with
  | [] => None
  | _ :: later => Some (joined (Match.content <$> later))
  end.
Proof.
  unfold content_maps_of_matches. rewrite accumulate_from, lookup_empty. reflexivity.
Qed.
End FilterFacts.

(** C1, evaluated: the index returns one match for the single stored
    result, carrying the page text; Filter leaves that result with the
    empty string as content, not with the content of the match. *)
Lemma filter_content_single_match :
  (RagSearch.filter_content Sample.service [Sample.fetched_hit] "who" 0.8 6 []).1
  = RagSearch.Returned [RagSearch.set_content "" Sample.fetched_hit]
  ∧ RagSearch.query_results Sample.service [Sample.fetched_hit] "who" 0.8 6
    = Return [Sample.found "2" 0.9 "the whole page"].
Proof. split; vm_compute; reflexivity. Qed.

(** C6: whenever Filter returns, it returns as many results as it was
    given, with identifiers, titles, links, snippets and scores in the same
    sequence, and a result whose identifier is not a key of the accumulated
    content dictionary comes back as it went in, at the same position. *)
Theorem filter_content_frame (C : RagSearch.collaborators)
    (search_results : list RagSearch.SearchResult) (query : string)
    (filter_min_score : Q) (filter_top_k : Z)
    (log : list RagSearch.event) (out : list RagSearch.SearchResult) :
  (RagSearch.filter_content C search_results query filter_min_score filter_top_k log).1
    = RagSearch.Returned out →
  length out = length search_results
  ∧ RagSearch.uuid <$> out = RagSearch.uuid <$> search_results
  ∧ RagSearch.title <$> out = RagSearch.title <$> search_results
  ∧ RagSearch.link <$> out = RagSearch.link <$> search_results
  ∧ RagSearch.snippet <$> out = RagSearch.snippet <$> search_results
  ∧ RagSearch.score <$> out = RagSearch.score <$> search_results
  ∧ ∃ index match_results,
      RagSearch.store_results C
        (filter (fun result => RagSearch.has_content result = true) search_results)
        = Return index
      ∧ RagSearch.query_results C index query filter_min_score filter_top_k
        = Return match_results
      ∧ ∀ i result,
          search_results !! i = Some result →
          RagSearch.content_maps_of_matches match_results !! RagSearch.uuid result = None →
          out !! i = Some result.
Proof.
  rewrite filter_content_run. cbv zeta.
  destruct (RagSearch.store_results C _) as [index|e]; [|discriminate].
  destruct (RagSearch.query_results C index _ _ _) as [match_results|e] eqn:Hquery;
    [|discriminate].
  cbn [fst]. intros [= <-]. split; [apply length_fmap|].
  repeat (split; [apply attach_frame; intros result; apply attach_fields|]).
  exists index, match_results. split; [reflexivity|]. split; [exact Hquery|].
  intros i result Hi Hnone. rewrite list_lookup_fmap, Hi. cbn.
  unfold RagSearch.attach. rewrite Hnone. reflexivity.
Qed.

Lemma filter_content_frame_witness :
  let search_results := [Sample.fetched_hit; Sample.hit "1" "https://a" 0] in
  let out := [RagSearch.set_content "" Sample.fetched_hit; Sample.hit "1" "https://a" 0] in
  length out = length search_results
  ∧ RagSearch.uuid <$> out = RagSearch.uuid <$> search_results
  ∧ RagSearch.title <$> out = RagSearch.title <$> search_results
  ∧ RagSearch.link <$> out = RagSearch.link <$> search_results
  ∧ RagSearch.snippet <$> out = RagSearch.snippet <$> search_results
  ∧ RagSearch.score <$> out = RagSearch.score <$> search_results
  ∧ ∃ index match_results,
      RagSearch.store_results Sample.service
        (filter (fun result => RagSearch.has_content result = true) search_results)
        = Return index
      ∧ RagSearch.query_results Sample.service index "who" 0.8 6 = Return match_results
      ∧ ∀ i result,
          search_results !! i = Some result →
          RagSearch.content_maps_of_matches match_results !! RagSearch.uuid result = None →
          out !! i = Some result.
Proof.
  apply (filter_content_frame Sample.service
           [Sample.fetched_hit; Sample.hit "1" "https://a" 0] "who" 0.8 6 []).
  vm_compute. reflexivity.
Defined.

(** ** The endpoint *)

Example api_key_bearer : RagSearch.api_key (Some "Bearer secret") = "secret".
Proof. reflexivity. Qed.

Example api_key_missing : RagSearch.api_key None = "".
Proof. reflexivity. Qed.

(** The sample request, with the right key: Rerank puts result 2 first,
    Detail-Fetch asks for all three pages, and the four collaborator calls
    are logged in order. *)
Example rag_search_sample :
  RagSearch.rag_search Sample.service Sample.request (Some "Bearer secret") []
  = (RagSearch.resp_data
       [RagSearch.set_content "" (Sample.hit "2" "https://b" 0.9);
        RagSearch.set_content Sample.two_lines (Sample.hit "1" "https://a" 0.5);
        RagSearch.set_content "" (Sample.hit "3" "https://c" 0.5)],
     [RagSearch.CallSearch {| RagSearch.q := "who"; RagSearch.num := 10; RagSearch.hl := None |};
      RagSearch.CallStore Sample.hits;
      RagSearch.CallQuery "who" 0 3;
      RagSearch.CallBatchFetch ["https://b"; "https://a"; "https://c"]]).
Proof. vm_compute. reflexivity. Qed.

Section EndpointFacts.
Import RagSearch.
Context (C : collaborators).

Lemma M_bind_run {A B} (m : M A) (k : A → M B) (log : list event) :
  (m ≫= k) log = k (m log).1 (m log).2.
Proof. unfold mbind, M_bind. destruct (m log); reflexivity. Qed.

(** What the two optional stages after Rerank make of a list does not
    depend on the calls logged before them. *)
Lemma finish_log (req : RagSearchReq) (results : list SearchResult)
    (log log' : list event) :
  ((search_results ←
      (if is_detail req
       then attempt (fetch_details C results (detail_min_score req) (detail_top_k req))
       else mret results);
    search_results ←
      (if is_filter req
       then attempt (filter_content C search_results (query req)
                       (filter_min_score req) (filter_top_k req))
       else mret search_results);
    mret (resp_data search_results)) log).1
  = ((search_results ←
        (if is_detail req
         then attempt (fetch_details C results (detail_min_score req) (detail_top_k req))
         else mret results);
      search_results ←
        (if is_filter req
         then attempt (filter_content C search_results (query req)
                         (filter_min_score req) (filter_top_k req))
         else mret search_results);
      mret (resp_data search_results)) log').1.
Proof.
  unfold attempt, mbind, M_bind, mret, M_ret.
  assert (Hfilter : ∀ l k k',
    ((if is_filter req
      then fun log => let (o, log1) := filter_content C l (query req) (filter_min_score req)
                                         (filter_top_k req) log in (carry_on o, log1)
      else fun log => (l, log)) k).1
    = ((if is_filter req
        then fun log => let (o, log1) := filter_content C l (query req) (filter_min_score req)
                                           (filter_top_k req) log in (carry_on o, log1)
        else fun log => (l, log)) k').1).
  { intros l k k'. destruct (is_filter req); [|reflexivity].
    pose proof (filter_content_log C l (query req) (filter_min_score req)
                  (filter_top_k req) k k') as H.
    destruct (filter_content C l _ _ _ k), (filter_content C l _ _ _ k').
    cbn in *. congruence. }
  destruct (is_detail req).
  - pose proof (fetch_details_log C results (detail_min_score req)
                  (detail_top_k req) log log') as H.
    destruct (fetch_details C results _ _ log) as [o k],
             (fetch_details C results _ _ log') as [o' k'].
    cbn in H. subst o'. specialize (Hfilter (carry_on o) k k').
    destruct (is_filter req).
    + destruct (filter_content C _ _ _ _ k), (filter_content C _ _ _ _ k').
      cbn in *. congruence.
    + reflexivity.
  - specialize (Hfilter results log log').
    destruct (is_filter req).
    + destruct (filter_content C _ _ _ _ log), (filter_content C _ _ _ _ log').
      cbn in *. congruence.
    + reflexivity.
Qed.
End EndpointFacts.

(** C8: when the key presented does not match the configured secret, or
    the query is the empty string, the endpoint answers with an error and
    the log of collaborator calls is as it was: neither the search
    provider, nor the index, nor the fetcher has been called.  A wrong key
    is reported as such whatever the query, the empty query only to a
    caller holding the right key. *)
Theorem rag_search_rejects (C : RagSearch.collaborators) (req : RagSearch.RagSearchReq)
    (authorization : option string) (log : list RagSearch.event) :
  Some (RagSearch.api_key authorization) ≠ RagSearch.AUTH_API_KEY C
  ∨ RagSearch.query req = "" →
  ∃ msg,
    RagSearch.rag_search C req authorization log = (RagSearch.resp_err msg, log)
    ∧ (Some (RagSearch.api_key authorization) ≠ RagSearch.AUTH_API_KEY C →
       msg = "Access Denied")
    ∧ (Some (RagSearch.api_key authorization) = RagSearch.AUTH_API_KEY C →
       msg = "invalid params").
Proof.
  intros Hbad. unfold RagSearch.rag_search. cbv zeta.
  destruct (decide (Some (RagSearch.api_key authorization) ≠ RagSearch.AUTH_API_KEY C))
    as [Hkey|Hkey].
  - exists "Access Denied". split; [reflexivity|]. split; [reflexivity|]. intros; contradiction.
  - destruct (decide (RagSearch.query req = "")) as [Hq|Hq].
    + exists "invalid params". split; [reflexivity|]. split; [intros; contradiction|reflexivity].
    + destruct Hbad; contradiction.
Qed.

Lemma rag_search_rejects_witness :
  ∃ msg,
    RagSearch.rag_search Sample.service Sample.request (Some "Bearer guess") []
      = (RagSearch.resp_err msg, [])
    ∧ (Some (RagSearch.api_key (Some "Bearer guess")) ≠ Some "secret" → msg = "Access Denied")
    ∧ (Some (RagSearch.api_key (Some "Bearer guess")) = Some "secret" → msg = "invalid params").
Proof.
  apply (rag_search_rejects Sample.service Sample.request (Some "Bearer guess") []).
  left. vm_compute. discriminate.
Defined.

(** C10: with no [AUTH_API_KEY] configured, every request is answered with
    the access-denied error, whatever authorization header it carries and
    also when it carries none; no collaborator is called. *)
Theorem rag_search_without_secret (C : RagSearch.collaborators) (req : RagSearch.RagSearchReq)
    (authorization : option string) (log : list RagSearch.event) :
  RagSearch.AUTH_API_KEY C = None →
  RagSearch.rag_search C req authorization log = (RagSearch.resp_err "Access Denied", log).
Proof.
  intros Hnone. unfold RagSearch.rag_search. cbv zeta. rewrite Hnone.
  rewrite decide_True by discriminate. reflexivity.
Qed.

Lemma rag_search_without_secret_witness :
  RagSearch.rag_search Sample.service_no_secret Sample.request None []
  = (RagSearch.resp_err "Access Denied", []).
Proof.
  apply (rag_search_without_secret Sample.service_no_secret Sample.request None []).
  reflexivity.
Defined.

(** C9: when the request asks for Rerank and Rerank raises on the results
    of Stage 1, the results it leaves behind are those of Stage 1,
    untouched; the endpoint carries on with them and answers what it
    answers to the same request with Rerank switched off. *)
Theorem rag_search_rerank_failure (C : RagSearch.collaborators) (req : RagSearch.RagSearchReq)
    (authorization : option string) (log log' : list RagSearch.event)
    (search_results left_behind : list RagSearch.SearchResult) (e : exn) :
  RagSearch.is_reranking req = true →
  (RagSearch.search C (RagSearch.query req) (RagSearch.search_n req) (RagSearch.locale req)
     log).1 = Return search_results →
  (RagSearch.reranking C search_results (RagSearch.query req) log').1
    = RagSearch.Raised e left_behind →
  left_behind = search_results
  ∧ (RagSearch.attempt (RagSearch.reranking C search_results (RagSearch.query req)) log').1
    = search_results
  ∧ (RagSearch.rag_search C req authorization log).1
    = (RagSearch.rag_search C (RagSearch.without_reranking req) authorization log).1.
Proof.
  intros Hon Hsearch Hraised.
  assert (Hleft : left_behind = search_results).
  { rewrite reranking_run in Hraised.
    destruct (RagSearch.store_results C search_results) as [index|e0];
      [|cbn in Hraised; congruence].
    cbv zeta in Hraised.
    destruct (RagSearch.query_results C index _ _ _); cbn in Hraised;
      [discriminate | congruence]. }
  subst left_behind. split; [reflexivity|].
  assert (Hattempt : ∀ k,
    (RagSearch.attempt (RagSearch.reranking C search_results (RagSearch.query req)) k).1
    = search_results).
  { intros k. pose proof (reranking_log C search_results (RagSearch.query req) k log') as H.
    rewrite Hraised in H. unfold RagSearch.attempt, mbind, RagSearch.M_bind.
    destruct (RagSearch.reranking C search_results _ k) as [o k'].
    cbn in H. subst o. reflexivity. }
  split; [apply Hattempt|].
  unfold RagSearch.rag_search. cbv zeta. cbn [RagSearch.without_reranking
    RagSearch.query RagSearch.locale RagSearch.search_n RagSearch.is_reranking
    RagSearch.is_detail RagSearch.is_filter RagSearch.detail_top_k
    RagSearch.detail_min_score RagSearch.filter_min_score RagSearch.filter_top_k].
  rewrite Hon.
  destruct (decide (Some (RagSearch.api_key authorization) ≠ RagSearch.AUTH_API_KEY C));
    [reflexivity|].
  destruct (decide (RagSearch.query req = "")); [reflexivity|].
  rewrite !(M_bind_run (RagSearch.search C _ _ _)), Hsearch. cbv beta iota.
  rewrite (M_bind_run (RagSearch.attempt _)), Hattempt.
  rewrite (M_bind_run (mret search_results)).
  change ((mret search_results : RagSearch.M _) ?k).1 with search_results.
  change ((mret search_results : RagSearch.M _) ?k).2 with k.
  apply finish_log.
Qed.

Lemma rag_search_rerank_failure_witness :
  Sample.hits = Sample.hits
  ∧ (RagSearch.attempt (RagSearch.reranking Sample.service_index_down Sample.hits "who") []).1
    = Sample.hits
  ∧ (RagSearch.rag_search Sample.service_index_down Sample.request (Some "Bearer secret") []).1
    = (RagSearch.rag_search Sample.service_index_down
         (RagSearch.without_reranking Sample.request) (Some "Bearer secret") []).1.
Proof.
  apply (rag_search_rerank_failure Sample.service_index_down Sample.request
           (Some "Bearer secret") [] [] Sample.hits Sample.hits
           (Exception "index unavailable")); reflexivity.
Defined.


(** * Further properties of the code *)

(** ** String replacement *)

Lemma length_append (s t : string) :
  String.length (s +:+ t) = String.length s + String.length t.
Proof.
  induction s as [|c s IH]; [reflexivity|].
  change (S (String.length (s +:+ t)) = S (String.length s + String.length t)).
  rewrite IH. reflexivity.
Qed.

Lemma prefix_length (old s : string) :
  String.prefix old s = true → (String.length old ≤ String.length s)%nat.
Proof.
  revert s. induction old as [|c old IH]; intros s; [cbn; lia|].
  destruct s as [|c' s]; cbn [String.prefix String.length]; [discriminate|].
  destruct (ascii_dec c c'); [|discriminate].
  intros H. apply IH in H. lia.
Qed.

Lemma replace_from_length (old new : string) :
  (String.length new ≤ String.length old)%nat →
  ∀ s skip, (String.length (replace_from old new skip s) ≤ String.length s - skip)%nat.
Proof.
  intros Hnew s. induction s as [|c rest IH]; intros skip; cbn [replace_from].
  - cbn. lia.
  - destruct skip as [|k].
    + destruct (String.prefix old (String c rest)) eqn:Hp.
      * apply prefix_length in Hp. rewrite length_append.
        specialize (IH (String.length old - 1)). cbn [String.length] in *. lia.
      * specialize (IH 0). cbn [String.length]. lia.
    + specialize (IH k). cbn [String.length]. lia.
Qed.

(** Where the first character of [old] does not occur, nothing is
    replaced. *)
Lemma str_replace_absent (c : ascii) (old new s : string) :
  mentions c s = false → str_replace (String c old) new s = s.
Proof.
  unfold str_replace. induction s as [|a rest IH]; [reflexivity|].
  cbn [mentions]. case_decide as Ha; [discriminate|]. intros Hm.
  cbn [replace_from String.prefix].
  destruct (ascii_dec c a) as [Hc|_]; [congruence|].
  f_equal. auto.
Qed.

(** The substitution of [fetch_markdown] never makes a text longer. *)
Theorem re_sub_length (markdown : string) :
  (String.length (Web.re_sub markdown) ≤ String.length markdown)%nat.
Proof.
  unfold Web.re_sub, str_replace.
  pose proof (replace_from_length Web.pattern (String LF "")) as H.
  specialize (H ltac:(cbn; lia) markdown 0). lia.
Qed.

Lemma re_sub_without_brace_witness :
  Web.re_sub Sample.two_lines = Sample.two_lines.
Proof. apply (re_sub_without_brace Sample.two_lines). reflexivity. Defined.

(** It does replace a line feed followed by the text [{2,n}], by a line
    feed. *)
Example re_sub_literal :
  Web.re_sub ("a" +:+ String LF "{2,n}b") = "a" +:+ String LF "b".
Proof. reflexivity. Qed.

(** ** More on the page fetcher *)

(** How a single fetch ends.  When [session.get] raises, the content is
    the empty string.  When the answer carries an error status, or its
    body cannot be read, the content is what the converter makes of the
    empty document.  Otherwise it is the normalised conversion of the
    body; a converter that raises counts as having produced the empty
    string. *)
Theorem fetch_markdown_cases (s : Web.env) (url : string) :
  let converted html :=
    match Web.handle s html with Return markdown => markdown | Raise _ => "" end in
  Web.fetch_markdown s url =
  Return (url,
          match Web.session_get s url with
          | Raise _ => ""
          | Return r =>
              match Web.raise_for_status r, Web.text r with
              | Return _, Return html => Web.re_sub (converted html)
              | _, _ => Web.re_sub (converted "")
              end
          end).
Proof.
  unfold Web.fetch_markdown, Web.fetch_url, Web.html_to_markdown. cbv zeta.
  destruct (Web.session_get s url) as [r|e]; cbn; [|reflexivity].
  destruct (Web.raise_for_status r) as [[]|e]; cbn.
  - destruct (Web.text r) as [html|e]; cbn.
    + destruct (Web.handle s html); reflexivity.
    + destruct (Web.handle s ""); reflexivity.
  - destruct (Web.handle s ""); reflexivity.
Qed.

Lemma gather_app {A} (tasks1 tasks2 : list (result A)) :
  Web.gather (tasks1 ++ tasks2) =
  (r1 ← Web.gather tasks1; r2 ← Web.gather tasks2; Return (r1 ++ r2)).
Proof.
  induction tasks1 as [|task tasks1 IH]; cbn.
  - destruct (Web.gather tasks2); reflexivity.
  - destruct task as [a|e]; cbn; [|reflexivity]. rewrite IH.
    destruct (Web.gather tasks1); cbn; [|reflexivity].
    destruct (Web.gather tasks2); reflexivity.
Qed.

(** Fetching two lists of URLs in one batch gives the outcomes of the
    first batch followed by those of the second: a batch neither merges
    repeated URLs nor lets one URL influence another. *)
Theorem batch_fetch_urls_app (s : Web.env) (urls1 urls2 : list string) :
  Web.batch_fetch_urls s (urls1 ++ urls2) =
  (r1 ← Web.batch_fetch_urls s urls1;
   r2 ← Web.batch_fetch_urls s urls2;
   Return (r1 ++ r2)).
Proof.
  destruct (gather_fetch_markdown s urls1) as (r1 & H1 & _).
  destruct (gather_fetch_markdown s urls2) as (r2 & H2 & _).
  unfold Web.batch_fetch_urls. cbv zeta.
  change (fun url => Web.fetch_markdown s url) with (Web.fetch_markdown s).
  rewrite fmap_app, gather_app, H1, H2. reflexivity.
Qed.

Lemma batch_fetch_urls_formula (s : Web.env) (urls : list string) :
  let converted html :=
    match Web.handle s html with Return markdown => markdown | Raise _ => "" end in
  let outcome url :=
    match Web.session_get s url with
    | Raise _ => ""
    | Return r =>
        match Web.raise_for_status r, Web.text r with
        | Return _, Return html => Web.re_sub (converted html)
        | _, _ => Web.re_sub (converted "")
        end
    end in
  Web.batch_fetch_urls s urls = Return ((fun url => (url, outcome url)) <$> urls).
Proof.
  intros converted outcome.
  assert (Hone : ∀ url, Web.fetch_markdown s url = Return (url, outcome url)).
  { intros url. subst outcome converted.
    unfold Web.fetch_markdown, Web.fetch_url, Web.html_to_markdown. cbv beta.
    destruct (Web.session_get s url) as [r|e]; cbn; [|reflexivity].
    destruct (Web.raise_for_status r) as [[]|e]; cbn.
    - destruct (Web.text r) as [html|e]; cbn.
      + destruct (Web.handle s html); reflexivity.
      + destruct (Web.handle s ""); reflexivity.
    - destruct (Web.handle s ""); reflexivity. }
  unfold Web.batch_fetch_urls. cbv zeta.
  change (fun url => Web.fetch_markdown s url) with (Web.fetch_markdown s).
  assert (Hg : Web.gather (Web.fetch_markdown s <$> urls)
               = Return ((fun url => (url, outcome url)) <$> urls)).
  { induction urls as [|url urls IH]; [reflexivity|].
    cbn. rewrite Hone, IH. reflexivity. }
  rewrite Hg. reflexivity.
Qed.

(** A batch never raises and returns exactly one pair per URL, in input
    order.  The outcome at a URL is fixed by that URL's own exchange and
    by the converter: the empty string when the request raises, the
    normalised conversion of the empty document on an error status or an
    unreadable body, the normalised conversion of the body otherwise.  So
    it is the same in any network that treats this URL alike, whatever
    happens there to the other URLs of the batch. *)
Theorem batch_fetch_urls_outcomes (s : Web.env) (urls : list string) :
  let converted html :=
    match Web.handle s html with Return markdown => markdown | Raise _ => "" end in
  let outcome url :=
    match Web.session_get s url with
    | Raise _ => ""
    | Return r =>
        match Web.raise_for_status r, Web.text r with
        | Return _, Return html => Web.re_sub (converted html)
        | _, _ => Web.re_sub (converted "")
        end
    end in
  Web.batch_fetch_urls s urls = Return ((fun url => (url, outcome url)) <$> urls)
  ∧ ∀ s' i url,
      (∀ html, Web.handle s' html = Web.handle s html) →
      urls !! i = Some url →
      Web.session_get s' url = Web.session_get s url →
      ∃ results',
        Web.batch_fetch_urls s' urls = Return results'
        ∧ results' !! i = Some (url, outcome url).
Proof.
  intros converted outcome. split; [apply batch_fetch_urls_formula|].
  intros s' i url Hh Hi Hg. eexists. split; [apply batch_fetch_urls_formula|].
  rewrite list_lookup_fmap, Hi. cbn. subst outcome converted. cbv beta.
  rewrite Hg. destruct (Web.session_get s url) as [r|e]; [|reflexivity].
  destruct (Web.raise_for_status r) as [[]|e]; [destruct (Web.text r)|];
    rewrite Hh; reflexivity.
Qed.

(** ** More on Rerank *)

Lemma sorted_reverse_id {A} (key : A → Q) (l : list A) :
  StronglySorted (fun a b => (key b <= key a)%Q) l → sorted_reverse key l = l.
Proof.
  induction 1 as [|x l Hl IH Hx]; cbn [sorted_reverse]; [reflexivity|].
  rewrite IH. destruct l as [|y l]; [reflexivity|]. cbn [insert_reverse].
  apply Forall_cons in Hx as [Hxy _].
  unfold Qlt_bool. apply Qle_bool_iff in Hxy. rewrite Hxy. reflexivity.
Qed.

Lemma score_maps_from (match_results : list Match.t) :
  ∀ (score_maps : gmap string Q) (id : string),
    foldl (fun score_maps result => <[Match.uuid result := Match.score result]> score_maps)
      score_maps match_results !! id =
    match last (filter (fun m => Match.uuid m = id) match_results) with
    | Some m => Some (Match.score m)
    | None => score_maps !! id
    end.
Proof.
  induction match_results as [|m rest IH]; intros score_maps id; [reflexivity|].
  cbn [foldl]. rewrite IH, filter_cons. clear IH.
  destruct (decide (Match.uuid m = id)) as [<-|Hne].
  - rewrite last_cons, lookup_insert_eq.
    destruct (last (filter _ rest)); reflexivity.
  - rewrite lookup_insert_ne by exact Hne. reflexivity.
Qed.

(** The score Rerank writes onto a result is the score of the last match
    that carries the result's identifier; a result no match carries is
    left as it is. *)
Theorem rescore_last_match (match_results : list Match.t) (result : RagSearch.SearchResult) :
  RagSearch.rescore (RagSearch.score_maps_of match_results) result =
  match last (filter (fun m => Match.uuid m = RagSearch.uuid result) match_results) with
  | Some m => RagSearch.set_score (Match.score m) result
  | None => result
  end.
Proof.
  unfold RagSearch.rescore, RagSearch.score_maps_of.
  rewrite score_maps_from, lookup_empty.
  destruct (last (filter _ match_results)); reflexivity.
Qed.

(** When the index returns no match and the results already stand in
    descending order of score (as when all scores are equal), Rerank
    returns them as they are. *)
Theorem reranking_no_match (C : RagSearch.collaborators)
    (search_results : list RagSearch.SearchResult) (query : string)
    (log : list RagSearch.event) (index : RagSearch.index C) :
  RagSearch.store_results C search_results = Return index →
  RagSearch.query_results C index query 0 (RagSearch.len search_results) = Return [] →
  StronglySorted (fun a b => (RagSearch.score b <= RagSearch.score a)%Q) search_results →
  (RagSearch.reranking C search_results query log).1 = RagSearch.Returned search_results.
Proof.
  intros Hstore Hquery Hsorted. rewrite reranking_run, Hstore. cbv zeta.
  rewrite Hquery. cbn [fst].
  replace (RagSearch.rescore (RagSearch.score_maps_of []) <$> search_results)
    with search_results.
  - rewrite sorted_reverse_id by exact Hsorted. reflexivity.
  - symmetry. etransitivity; [|apply list_fmap_id].
    apply list_fmap_ext. intros i r _. reflexivity.
Qed.

Lemma reranking_no_match_witness :
  (RagSearch.reranking Sample.service_no_secret Sample.hits "who" []).1
  = RagSearch.Returned Sample.hits.
Proof.
  apply (reranking_no_match Sample.service_no_secret Sample.hits "who" [] Sample.hits).
  - reflexivity.
  - reflexivity.
  - repeat constructor; cbn; lra.
Defined.

(** ** More on Detail-Fetch *)

Lemma content_maps_from (details : list (string * string)) :
  ∀ (content_maps : gmap string string) (url : string),
    foldl (fun content_maps '(url, content) => <[url := content]> content_maps)
      content_maps details !! url =
    match last (filter (fun d => d.1 = url) details) with
    | Some d => Some d.2
    | None => content_maps !! url
    end.
Proof.
  induction details as [|[u c] rest IH]; intros content_maps url; [reflexivity|].
  cbn [foldl]. rewrite IH, filter_cons. clear IH. cbn [fst].
  destruct (decide (u = url)) as [<-|Hne].
  - rewrite last_cons, lookup_insert_eq.
    destruct (last (filter _ rest)); reflexivity.
  - rewrite lookup_insert_ne by exact Hne. reflexivity.
Qed.

(** What the join of [fetch_details] finds under a link, given the
    outcomes of the batch for the selected links. *)
Lemma content_maps_of_batch (s : Web.env) (urls : list string)
    (details : list (string * string)) (url : string) :
  Forall2 (fun u d => Web.fetch_markdown s u = Return d) urls details →
  if decide (url ∈ urls)
  then ∃ c, Web.fetch_markdown s url = Return (url, c)
            ∧ RagSearch.content_maps_of_details details !! url = Some c
  else RagSearch.content_maps_of_details details !! url = None.
Proof.
  intros Hall. unfold RagSearch.content_maps_of_details.
  rewrite content_maps_from, lookup_empty.
  assert (Hin : ∀ d, d ∈ details → d.1 ∈ urls ∧ Web.fetch_markdown s d.1 = Return d).
  { intros d Hd. apply list_elem_of_lookup in Hd as [i Hi].
    destruct (Forall2_lookup_r _ _ _ _ _ Hall Hi) as (u & Hu & Hf).
    destruct (fetch_markdown_returns s u) as (c & Hc & _).
    rewrite Hc in Hf. injection Hf as <-. cbn. split; [|exact Hc].
    apply list_elem_of_lookup. eauto. }
  destruct (decide (url ∈ urls)) as [Hurl|Hurl].
  - destruct (last (filter (fun d => d.1 = url) details)) as [d|] eqn:Hlast.
    + apply last_Some_elem_of, list_elem_of_filter in Hlast as [Hd1 Hd].
      apply Hin in Hd as [_ Hf]. rewrite Hd1 in Hf.
      destruct (fetch_markdown_returns s url) as (c & Hc & _).
      exists c. split; [exact Hc|]. rewrite Hc in Hf. injection Hf as <-. reflexivity.
    + exfalso. apply last_None in Hlast.
      apply list_elem_of_lookup in Hurl as [i Hi].
      destruct (Forall2_lookup_l _ _ _ _ _ Hall Hi) as (d & Hd & Hf).
      destruct (fetch_markdown_returns s url) as (c & Hc & _).
      rewrite Hc in Hf. injection Hf as <-.
      eapply (filter_nil_not_elem_of _ _ (url, c) Hlast); [reflexivity|].
      apply list_elem_of_lookup. eauto.
  - destruct (last (filter (fun d => d.1 = url) details)) as [d|] eqn:Hlast; [|reflexivity].
    apply last_Some_elem_of, list_elem_of_filter in Hlast as [Hd1 Hd].
    apply Hin in Hd as [Hd _]. rewrite Hd1 in Hd. contradiction.
Qed.

(** Whenever Detail-Fetch returns, a result whose link is among the
    selected links comes back with the content [fetch_markdown] yields for
    that link, whether or not the result itself was among the candidates;
    any other result keeps the content it had. *)
Theorem fetch_details_join (C : RagSearch.collaborators)
    (search_results : list RagSearch.SearchResult) (min_score : Q) (top_k : Z)
    (log : list RagSearch.event) (out : list RagSearch.SearchResult) :
  (RagSearch.fetch_details C search_results min_score top_k log).1 = RagSearch.Returned out →
  Forall2 (fun r r' =>
             if decide (RagSearch.link r
                        ∈ RagSearch.select_urls min_score top_k [] search_results)
             then ∃ c, Web.fetch_markdown (RagSearch.session C) (RagSearch.link r)
                       = Return (RagSearch.link r, c)
                       ∧ RagSearch.content r' = Some c
             else RagSearch.content r' = RagSearch.content r)
    search_results out.
Proof.
  rewrite fetch_details_run. cbv zeta. cbn [fst].
  destruct (batch_fetch_urls_returns (RagSearch.session C)
              (RagSearch.select_urls min_score top_k [] search_results))
    as (details & Hb & Hall).
  rewrite Hb. intros [= <-].
  apply Forall2_fmap_r, Forall_Forall2_diag, Forall_forall. intros r _.
  unfold compose. cbv beta.
  pose proof (content_maps_of_batch _ _ _ (RagSearch.link r) Hall) as Hmap.
  pose proof (attach_fields (RagSearch.content_maps_of_details details) RagSearch.link r)
    as (_ & _ & _ & _ & _ & Hcontent).
  rewrite Hcontent.
  destruct (decide (RagSearch.link r ∈ _)).
  - destruct Hmap as (c & Hc & ->). eauto.
  - rewrite Hmap. reflexivity.
Qed.

(** Two results share the link [https://a]; with [top_k = 0] only the
    first is a candidate, and both come back with the page. *)
Lemma fetch_details_join_witness :
  Forall2 (fun r r' =>
             if decide (RagSearch.link r
                        ∈ RagSearch.select_urls 0 0 []
                            [Sample.hit "1" "https://a" 0; Sample.hit "2" "https://b" 0;
                             Sample.hit "3" "https://a" 0])
             then ∃ c, Web.fetch_markdown (RagSearch.session Sample.service) (RagSearch.link r)
                       = Return (RagSearch.link r, c)
                       ∧ RagSearch.content r' = Some c
             else RagSearch.content r' = RagSearch.content r)
    [Sample.hit "1" "https://a" 0; Sample.hit "2" "https://b" 0; Sample.hit "3" "https://a" 0]
    [RagSearch.set_content Sample.two_lines (Sample.hit "1" "https://a" 0);
     Sample.hit "2" "https://b" 0;
     RagSearch.set_content Sample.two_lines (Sample.hit "3" "https://a" 0)].
Proof.
  apply (fetch_details_join Sample.service
           [Sample.hit "1" "https://a" 0; Sample.hit "2" "https://b" 0;
            Sample.hit "3" "https://a" 0] 0 0 []).
  vm_compute. reflexivity.
Defined.

(** With a negative [top_k] no link is selected: the batch fetch is
    called with no URL and the results come back as they went in. *)
Theorem fetch_details_negative_top_k (C : RagSearch.collaborators)
    (search_results : list RagSearch.SearchResult) (min_score : Q) (top_k : Z)
    (log : list RagSearch.event) :
  (top_k < 0)%Z →
  RagSearch.fetch_details C search_results min_score top_k log
  = (RagSearch.Returned search_results, log ++ [RagSearch.CallBatchFetch []]).
Proof.
  intros Hk. rewrite fetch_details_run. cbv zeta.
  assert (Hsel : RagSearch.select_urls min_score top_k [] search_results = []).
  { rewrite select_urls_from. replace (Z.to_nat (top_k + 1)) with 0 by lia. reflexivity. }
  rewrite Hsel. cbn. f_equal. f_equal.
  etransitivity; [|apply list_fmap_id].
  apply list_fmap_ext. intros i r _. reflexivity.
Qed.

Lemma fetch_details_negative_top_k_witness :
  RagSearch.fetch_details Sample.service Sample.hits 0 (-1) []
  = (RagSearch.Returned Sample.hits, [RagSearch.CallBatchFetch []]).
Proof.
  apply (fetch_details_negative_top_k Sample.service Sample.hits 0 (-1) []). lia.
Defined.

(** ** More on Filter *)

(** When Filter raises, it has not written to any result: the list it
    leaves behind, and with which the endpoint carries on, is the list it
    was given. *)
Theorem filter_content_failure (C : RagSearch.collaborators)
    (search_results left_behind : list RagSearch.SearchResult) (query : string)
    (filter_min_score : Q) (filter_top_k : Z) (log : list RagSearch.event) (e : exn) :
  (RagSearch.filter_content C search_results query filter_min_score filter_top_k log).1
    = RagSearch.Raised e left_behind →
  left_behind = search_results
  ∧ (RagSearch.attempt
       (RagSearch.filter_content C search_results query filter_min_score filter_top_k) log).1
    = search_results.
Proof.
  intros Hraised. unfold RagSearch.attempt.
  rewrite M_bind_run. change ((mret ?x : RagSearch.M _) ?k).1 with x.
  rewrite Hraised. cbn [RagSearch.carry_on].
  rewrite filter_content_run in Hraised. cbv zeta in Hraised.
  destruct (RagSearch.store_results C _) as [index|e0]; [|cbn in Hraised; split; congruence].
  destruct (RagSearch.query_results C index _ _ _); cbn in Hraised;
    [discriminate | split; congruence].
Qed.

Lemma filter_content_failure_witness :
  Sample.hits = Sample.hits
  ∧ (RagSearch.attempt
       (RagSearch.filter_content Sample.service_index_down Sample.hits "who" 0.8 6) []).1
    = Sample.hits.
Proof.
  apply (filter_content_failure Sample.service_index_down Sample.hits Sample.hits
           "who" 0.8 6 [] (Exception "index unavailable")).
  reflexivity.
Defined.

(** ** More on the endpoint *)

Section PipelineFacts.
Import RagSearch.
Context (C : collaborators).

(** What identifies a result: every field but score and content. *)
Local Abbreviation ident :=
  (fun r : SearchResult => (uuid r, title r, link r, snippet r)).

Lemma search_run (query : string) (num : Z) (locale : option string) (log : list event) :
  search C query num locale log =
  let p := {| q := query; num := num; hl := if truthy locale then locale else None |} in
  (get_search_results C p, log ++ [CallSearch p]).
Proof. unfold search, call. destruct (truthy locale); reflexivity. Qed.

Lemma attempt_run (stage : M outcome) (log : list event) :
  attempt stage log = (carry_on (stage log).1, (stage log).2).
Proof. unfold attempt. rewrite M_bind_run. reflexivity. Qed.

Lemma reranking_ident (search_results : list SearchResult) (query : string)
    (log : list event) :
  ident <$> carry_on (reranking C search_results query log).1 ≡ₚ ident <$> search_results.
Proof.
  rewrite reranking_run.
  destruct (store_results C search_results) as [index|e]; [|reflexivity]. cbv zeta.
  destruct (query_results C index query 0 (len search_results)) as [match_results|e];
    [|reflexivity].
  cbn [fst carry_on]. rewrite sorted_reverse_perm, <- list_fmap_compose.
  erewrite list_fmap_ext; [reflexivity|].
  intros i r _. cbn. unfold rescore. destruct (_ !! uuid r); reflexivity.
Qed.

Lemma attach_ident (content_maps : gmap string string) (key : SearchResult → string)
    (search_results : list SearchResult) :
  ident <$> (attach content_maps key <$> search_results) = ident <$> search_results.
Proof.
  apply attach_frame. intros r. unfold attach. destruct (_ !! key r); reflexivity.
Qed.

Lemma fetch_details_ident (search_results : list SearchResult) (min_score : Q) (top_k : Z)
    (log : list event) :
  ident <$> carry_on (fetch_details C search_results min_score top_k log).1
  = ident <$> search_results.
Proof.
  rewrite fetch_details_run. cbv zeta. cbn [fst].
  destruct (Web.batch_fetch_urls _ _); cbn [carry_on]; [apply attach_ident | reflexivity].
Qed.

Lemma filter_content_ident (search_results : list SearchResult) (query : string)
    (filter_min_score : Q) (filter_top_k : Z) (log : list event) :
  ident <$> carry_on (filter_content C search_results query filter_min_score filter_top_k log).1
  = ident <$> search_results.
Proof.
  rewrite filter_content_run. cbv zeta.
  destruct (store_results C _) as [index|e]; [|reflexivity].
  destruct (query_results C index _ _ _); cbn [fst carry_on];
    [apply attach_ident | reflexivity].
Qed.

Lemma reranking_calls (search_results : list SearchResult) (query : string)
    (log : list event) :
  ∃ calls, (reranking C search_results query log).2 = log ++ calls ∧ (length calls ≤ 2)%nat.
Proof.
  rewrite reranking_run.
  destruct (store_results C search_results) as [index|e]; [|eexists; split; [reflexivity|cbn; lia]].
  cbv zeta. destruct (query_results C index _ _ _);
    eexists; (split; [reflexivity | cbn; lia]).
Qed.

Lemma fetch_details_calls (search_results : list SearchResult) (min_score : Q) (top_k : Z)
    (log : list event) :
  ∃ calls, (fetch_details C search_results min_score top_k log).2 = log ++ calls
           ∧ (length calls ≤ 1)%nat.
Proof. rewrite fetch_details_run. eexists. split; [reflexivity | cbn; lia]. Qed.

Lemma filter_content_calls (search_results : list SearchResult) (query : string)
    (filter_min_score : Q) (filter_top_k : Z) (log : list event) :
  ∃ calls, (filter_content C search_results query filter_min_score filter_top_k log).2
           = log ++ calls ∧ (length calls ≤ 2)%nat.
Proof.
  rewrite filter_content_run. cbv zeta.
  destruct (store_results C _) as [index|e]; [|eexists; split; [reflexivity|cbn; lia]].
  destruct (query_results C index _ _ _);
    eexists; (split; [reflexivity | cbn; lia]).
Qed.

(** The endpoint past its two guards, stage by stage. *)
Lemma rag_search_run (req : RagSearchReq) (authorization : option string)
    (log : list event) :
  Some (api_key authorization) = AUTH_API_KEY C →
  query req ≠ "" →
  let p := {| q := query req; num := search_n req;
              hl := if truthy (locale req) then locale req else None |} in
  let log1 := log ++ [CallSearch p] in
  rag_search C req authorization log =
  match get_search_results C p with
  | Raise e => (resp_err ("get search results failed: " +:+ str e), log1)
  | Return search_results =>
      let s2 := if is_reranking req
                then attempt (reranking C search_results (query req)) log1
                else (search_results, log1) in
      let s3 := if is_detail req
                then attempt (fetch_details C s2.1 (detail_min_score req) (detail_top_k req))
                       s2.2
                else s2 in
      let s4 := if is_filter req
                then attempt (filter_content C s3.1 (query req) (filter_min_score req)
                                (filter_top_k req)) s3.2
                else s3 in
      (resp_data s4.1, s4.2)
  end.
Proof.
  intros Hkey Hquery. cbv zeta. unfold rag_search. cbv zeta.
  rewrite decide_False by (intros H; exact (H Hkey)).
  rewrite decide_False by exact Hquery.
  rewrite M_bind_run, search_run. cbv zeta. cbn [fst snd].
  destruct (get_search_results C _) as [search_results|e]; [|reflexivity].
  rewrite M_bind_run.
  destruct (is_reranking req); (rewrite M_bind_run;
    destruct (is_detail req); (rewrite M_bind_run;
      destruct (is_filter req); reflexivity)).
Qed.
End PipelineFacts.

(** When the search provider raises, the request fails with its message;
    the provider has been called once and nothing else has. *)
Theorem rag_search_search_failure (C : RagSearch.collaborators)
    (req : RagSearch.RagSearchReq) (authorization : option string)
    (log : list RagSearch.event) (e : exn) :
  let p := {| RagSearch.q := RagSearch.query req; RagSearch.num := RagSearch.search_n req;
              RagSearch.hl := if RagSearch.truthy (RagSearch.locale req)
                              then RagSearch.locale req else None |} in
  Some (RagSearch.api_key authorization) = RagSearch.AUTH_API_KEY C →
  RagSearch.query req ≠ "" →
  RagSearch.get_search_results C p = Raise e →
  RagSearch.rag_search C req authorization log
  = (RagSearch.resp_err ("get search results failed: " +:+ str e),
     log ++ [RagSearch.CallSearch p]).
Proof.
  intros p Hkey Hquery Hraise.
  rewrite (rag_search_run C req authorization log Hkey Hquery). cbv zeta.
  fold p. rewrite Hraise. reflexivity.
Qed.

Lemma rag_search_search_failure_witness :
  RagSearch.rag_search
    {| RagSearch.index := unit; RagSearch.AUTH_API_KEY := Some "secret";
       RagSearch.get_search_results := fun _ => Raise (Exception "quota");
       RagSearch.store_results := fun _ => Return tt;
       RagSearch.query_results := fun _ _ _ _ => Return [];
       RagSearch.session := Sample.net |}
    Sample.request (Some "Bearer secret") []
  = (RagSearch.resp_err "get search results failed: quota",
     [RagSearch.CallSearch
        {| RagSearch.q := "who"; RagSearch.num := 10; RagSearch.hl := None |}]).
Proof.
  apply (rag_search_search_failure
           {| RagSearch.index := unit; RagSearch.AUTH_API_KEY := Some "secret";
              RagSearch.get_search_results := fun _ => Raise (Exception "quota");
              RagSearch.store_results := fun _ => Return tt;
              RagSearch.query_results := fun _ _ _ _ => Return [];
              RagSearch.session := Sample.net |}
           Sample.request (Some "Bearer secret") [] (Exception "quota"));
    [reflexivity | discriminate | reflexivity].
Defined.

(** With the three optional stages off, the answer is the list of the
    search provider as it came, and the provider is the only collaborator
    called; the [hl] parameter is sent only for a non-empty locale. *)
Theorem rag_search_plain (C : RagSearch.collaborators)
    (req : RagSearch.RagSearchReq) (authorization : option string)
    (log : list RagSearch.event) (search_results : list RagSearch.SearchResult) :
  let p := {| RagSearch.q := RagSearch.query req; RagSearch.num := RagSearch.search_n req;
              RagSearch.hl := if RagSearch.truthy (RagSearch.locale req)
                              then RagSearch.locale req else None |} in
  Some (RagSearch.api_key authorization) = RagSearch.AUTH_API_KEY C →
  RagSearch.query req ≠ "" →
  RagSearch.is_reranking req = false →
  RagSearch.is_detail req = false →
  RagSearch.is_filter req = false →
  RagSearch.get_search_results C p = Return search_results →
  RagSearch.rag_search C req authorization log
  = (RagSearch.resp_data search_results, log ++ [RagSearch.CallSearch p]).
Proof.
  intros p Hkey Hquery H2 H3 H4 Hsearch.
  rewrite (rag_search_run C req authorization log Hkey Hquery). cbv zeta.
  fold p. rewrite Hsearch, H2, H3, H4. reflexivity.
Qed.

Lemma rag_search_plain_witness :
  RagSearch.rag_search Sample.service (RagSearch.RagSearchReq_defaults "who")
    (Some "Bearer secret") []
  = (RagSearch.resp_data Sample.hits,
     [RagSearch.CallSearch
        {| RagSearch.q := "who"; RagSearch.num := 10; RagSearch.hl := None |}]).
Proof.
  apply (rag_search_plain Sample.service (RagSearch.RagSearchReq_defaults "who")
           (Some "Bearer secret") [] Sample.hits);
    try reflexivity. discriminate.
Defined.

(** Whatever stages run and whichever of them fail, a successful answer
    holds the results of the search provider, each once: identifiers,
    titles, links and snippets are those of Stage 1 up to order, so the
    pipeline neither drops, nor duplicates, nor invents a result. *)
Theorem rag_search_keeps_results (C : RagSearch.collaborators)
    (req : RagSearch.RagSearchReq) (authorization : option string)
    (log log' : list RagSearch.event) (out : list RagSearch.SearchResult) :
  RagSearch.rag_search C req authorization log = (RagSearch.resp_data out, log') →
  ∃ p search_results,
    RagSearch.get_search_results C p = Return search_results
    ∧ (fun r => (RagSearch.uuid r, RagSearch.title r, RagSearch.link r, RagSearch.snippet r))
        <$> out
      ≡ₚ (fun r => (RagSearch.uuid r, RagSearch.title r, RagSearch.link r,
                    RagSearch.snippet r)) <$> search_results.
Proof.
  intros Hrun.
  destruct (decide (Some (RagSearch.api_key authorization) = RagSearch.AUTH_API_KEY C))
    as [Hkey|Hkey].
  2: { unfold RagSearch.rag_search in Hrun. cbv zeta in Hrun.
       rewrite decide_True in Hrun by exact Hkey. discriminate. }
  destruct (decide (RagSearch.query req = "")) as [Hquery|Hquery].
  { unfold RagSearch.rag_search in Hrun. cbv zeta in Hrun.
    rewrite decide_False in Hrun by (intros H; exact (H Hkey)).
    rewrite decide_True in Hrun by exact Hquery. discriminate. }
  rewrite (rag_search_run C req authorization log Hkey Hquery) in Hrun.
  cbv zeta in Hrun. eexists.
  destruct (RagSearch.get_search_results C _) as [search_results|e] eqn:Hsearch;
    [|discriminate].
  exists search_results. split; [exact Hsearch|].
  injection Hrun as <- _.
  destruct (RagSearch.is_filter req);
    [rewrite attempt_run; cbn [fst snd]; rewrite filter_content_ident|];
    (destruct (RagSearch.is_detail req);
       [rewrite attempt_run; cbn [fst snd]; rewrite fetch_details_ident|]);
    (destruct (RagSearch.is_reranking req);
       [rewrite attempt_run; cbn [fst snd]; apply reranking_ident | reflexivity]).
Qed.

Lemma rag_search_keeps_results_witness :
  ∃ p search_results,
    RagSearch.get_search_results Sample.service p = Return search_results
    ∧ (fun r => (RagSearch.uuid r, RagSearch.title r, RagSearch.link r, RagSearch.snippet r))
        <$> [RagSearch.set_content "" (Sample.hit "2" "https://b" 0.9);
             RagSearch.set_content Sample.two_lines (Sample.hit "1" "https://a" 0.5);
             RagSearch.set_content "" (Sample.hit "3" "https://c" 0.5)]
      ≡ₚ (fun r => (RagSearch.uuid r, RagSearch.title r, RagSearch.link r,
                    RagSearch.snippet r)) <$> search_results.
Proof.
  apply (rag_search_keeps_results Sample.service Sample.request (Some "Bearer secret") []
           [RagSearch.CallSearch
              {| RagSearch.q := "who"; RagSearch.num := 10; RagSearch.hl := None |};
            RagSearch.CallStore Sample.hits;
            RagSearch.CallQuery "who" 0 3;
            RagSearch.CallBatchFetch ["https://b"; "https://a"; "https://c"]]).
  vm_compute. reflexivity.
Defined.

(** The calls of the three optional stages, run from [log1] on the
    results of Stage 1. *)
Lemma stages_calls (C : RagSearch.collaborators) (req : RagSearch.RagSearchReq)
    (search_results : list RagSearch.SearchResult) (log1 : list RagSearch.event) :
  let s2 := if RagSearch.is_reranking req
            then RagSearch.attempt
                   (RagSearch.reranking C search_results (RagSearch.query req)) log1
            else (search_results, log1) in
  let s3 := if RagSearch.is_detail req
            then RagSearch.attempt
                   (RagSearch.fetch_details C s2.1 (RagSearch.detail_min_score req)
                      (RagSearch.detail_top_k req)) s2.2
            else s2 in
  let s4 := if RagSearch.is_filter req
            then RagSearch.attempt
                   (RagSearch.filter_content C s3.1 (RagSearch.query req)
                      (RagSearch.filter_min_score req) (RagSearch.filter_top_k req)) s3.2
            else s3 in
  ∃ calls,
    s4.2 = log1 ++ calls
    ∧ (length calls ≤ (if RagSearch.is_reranking req then 2 else 0)
                      + (if RagSearch.is_detail req then 1 else 0)
                      + (if RagSearch.is_filter req then 2 else 0))%nat.
Proof.
  intros s2 s3 s4.
  assert (H2 : ∃ calls, s2.2 = log1 ++ calls
               ∧ (length calls ≤ if RagSearch.is_reranking req then 2 else 0)%nat).
  { subst s2. destruct (RagSearch.is_reranking req).
    - rewrite attempt_run. apply reranking_calls.
    - exists []. rewrite app_nil_r. split; [reflexivity | cbn; lia]. }
  destruct H2 as (c2 & E2 & L2).
  assert (H3 : ∃ calls, s3.2 = s2.2 ++ calls
               ∧ (length calls ≤ if RagSearch.is_detail req then 1 else 0)%nat).
  { subst s3. destruct (RagSearch.is_detail req).
    - rewrite attempt_run. apply fetch_details_calls.
    - exists []. rewrite app_nil_r. split; [reflexivity | cbn; lia]. }
  destruct H3 as (c3 & E3 & L3).
  assert (H4 : ∃ calls, s4.2 = s3.2 ++ calls
               ∧ (length calls ≤ if RagSearch.is_filter req then 2 else 0)%nat).
  { subst s4. destruct (RagSearch.is_filter req).
    - rewrite attempt_run. apply filter_content_calls.
    - exists []. rewrite app_nil_r. split; [reflexivity | cbn; lia]. }
  destruct H4 as (c4 & E4 & L4).
  rewrite E4, E3, E2.
  eexists. rewrite <- !app_assoc. split; [reflexivity|].
  rewrite !length_app. lia.
Qed.

(** A request only ever adds to the log of collaborator calls, and adds
    at most one search, two index calls for Rerank, one batch fetch for
    Detail-Fetch and two index calls for Filter, each only when its stage
    is on: six calls at most.  A request that is rejected, for its key or
    for an empty query, adds none. *)
Theorem rag_search_call_budget (C : RagSearch.collaborators)
    (req : RagSearch.RagSearchReq) (authorization : option string)
    (log : list RagSearch.event) :
  ∃ calls,
    (RagSearch.rag_search C req authorization log).2 = log ++ calls
    ∧ (length calls ≤ 1 + (if RagSearch.is_reranking req then 2 else 0)
                        + (if RagSearch.is_detail req then 1 else 0)
                        + (if RagSearch.is_filter req then 2 else 0))%nat
    ∧ (Some (RagSearch.api_key authorization) ≠ RagSearch.AUTH_API_KEY C
       ∨ RagSearch.query req = "" → calls = []).
Proof.
  destruct (decide (Some (RagSearch.api_key authorization) = RagSearch.AUTH_API_KEY C))
    as [Hkey|Hkey].
  2: { exists []. unfold RagSearch.rag_search. cbv zeta.
       rewrite decide_True by exact Hkey. rewrite app_nil_r. cbn.
       split; [reflexivity|]. split; [lia | reflexivity]. }
  destruct (decide (RagSearch.query req = "")) as [Hquery|Hquery].
  { exists []. unfold RagSearch.rag_search. cbv zeta.
    rewrite decide_False by (intros H; exact (H Hkey)).
    rewrite decide_True by exact Hquery. rewrite app_nil_r. cbn.
    split; [reflexivity|]. split; [lia | reflexivity]. }
  assert (Hpass : ∀ calls : list RagSearch.event,
            Some (RagSearch.api_key authorization) ≠ RagSearch.AUTH_API_KEY C
            ∨ RagSearch.query req = "" → calls = [])
    by (intros calls [H|H]; contradiction).
  rewrite (rag_search_run C req authorization log Hkey Hquery). cbv zeta.
  destruct (RagSearch.get_search_results C _) as [search_results|e];
    [|eexists; split; [reflexivity | split; [cbn; lia | apply Hpass]]].
  cbn [snd].
  destruct (stages_calls C req search_results (log ++ [RagSearch.CallSearch
              {| RagSearch.q := RagSearch.query req; RagSearch.num := RagSearch.search_n req;
                 RagSearch.hl := if RagSearch.truthy (RagSearch.locale req)
                                 then RagSearch.locale req else None |}]))
    as (calls & E & L).
  cbv zeta in E. rewrite E. eexists. rewrite <- app_assoc.
  split; [reflexivity|]. split; [cbn [length app]; lia | apply Hpass].
Qed.

(** A header [Bearer k] presents the key [k], and so does the bare header
    [k], without the scheme (for a key without the letter B, of which
    [replace] could remove a part). *)
Theorem api_key_scheme_optional (k : string) :
  mentions "B" k = false →
  RagSearch.api_key (Some ("Bearer " +:+ k)) = k ∧ RagSearch.api_key (Some k) = k.
Proof.
  intros Hk. split.
  - change ("Bearer " +:+ k)
      with (String "B" (String "e" (String "a" (String "r" (String "e"
             (String "r" (String " " k))))))).
    unfold RagSearch.api_key. cbn [RagSearch.truthy default].
    change (str_replace "Bearer " "" ?s) with (replace_from "Bearer " "" 0 s).
    cbn [replace_from]. cbn.
    change (replace_from "Bearer " "" 0 k) with (str_replace "Bearer " "" k).
    replace (String.prefix "" k) with true by (destruct k; reflexivity).
    change ("" +:+ str_replace "Bearer " "" k) with (str_replace "Bearer " "" k).
    apply str_replace_absent, Hk.
  - unfold RagSearch.api_key. destruct k as [|c k]; [reflexivity|].
    cbn [RagSearch.truthy default]. apply str_replace_absent, Hk.
Qed.

Lemma api_key_scheme_optional_witness :
  RagSearch.api_key (Some ("Bearer " +:+ "secret")) = "secret"
  ∧ RagSearch.api_key (Some "secret") = "secret".
Proof. apply (api_key_scheme_optional "secret"). reflexivity. Defined.

(** With the empty string configured as the secret, a request that
    carries no Authorization header passes the key check: for a non-empty
    query the search provider is called. *)
Theorem rag_search_empty_secret (C : RagSearch.collaborators)
    (req : RagSearch.RagSearchReq) (log : list RagSearch.event) :
  RagSearch.AUTH_API_KEY C = Some "" →
  RagSearch.query req ≠ "" →
  ∃ p calls,
    (RagSearch.rag_search C req None log).2 = log ++ RagSearch.CallSearch p :: calls.
Proof.
  intros Hsecret Hquery.
  assert (Hkey : Some (RagSearch.api_key None) = RagSearch.AUTH_API_KEY C)
    by (rewrite Hsecret; reflexivity).
  rewrite (rag_search_run C req None log Hkey Hquery). cbv zeta.
  eexists.
  destruct (RagSearch.get_search_results C _) as [search_results|e];
    [|exists []; reflexivity].
  cbn [snd].
  destruct (stages_calls C req search_results (log ++ [RagSearch.CallSearch
              {| RagSearch.q := RagSearch.query req; RagSearch.num := RagSearch.search_n req;
                 RagSearch.hl := if RagSearch.truthy (RagSearch.locale req)
                                 then RagSearch.locale req else None |}]))
    as (calls & E & _).
  cbv zeta in E. rewrite E. exists calls. rewrite <- app_assoc. reflexivity.
Qed.

Lemma rag_search_empty_secret_witness :
  ∃ p calls,
    (RagSearch.rag_search
       {| RagSearch.index := unit; RagSearch.AUTH_API_KEY := Some "";
          RagSearch.get_search_results := fun _ => Return Sample.hits;
          RagSearch.store_results := fun _ => Return tt;
          RagSearch.query_results := fun _ _ _ _ => Return [];
          RagSearch.session := Sample.net |}
       Sample.request None []).2 = [] ++ RagSearch.CallSearch p :: calls.
Proof.
  apply (rag_search_empty_secret
           {| RagSearch.index := unit; RagSearch.AUTH_API_KEY := Some "";
              RagSearch.get_search_results := fun _ => Return Sample.hits;
              RagSearch.store_results := fun _ => Return tt;
              RagSearch.query_results := fun _ _ _ _ => Return [];
              RagSearch.session := Sample.net |}
           Sample.request []);
    [reflexivity | discriminate].
Defined.

(** [test] asks the provider for ten results without a locale; when that
    raises, so does [test], and when it returns, [test] fetches at most
    seven pages in one batch and ends normally. *)
Theorem test_run (C : RagSearch.collaborators) (log : list RagSearch.event) :
  let p := {| RagSearch.q := "Lenvia是谁"; RagSearch.num := 10; RagSearch.hl := None |} in
  match RagSearch.get_search_results C p with
  | Raise e => RagSearch.test C log = (Raise e, log ++ [RagSearch.CallSearch p])
  | Return search_results =>
      ∃ urls,
        RagSearch.test C log
        = (Return tt, log ++ [RagSearch.CallSearch p; RagSearch.CallBatchFetch urls])
        ∧ (length urls ≤ 7)%nat
  end.
Proof.
  intros p. unfold RagSearch.test. cbv zeta.
  rewrite M_bind_run, search_run. cbv zeta. cbn [fst snd RagSearch.truthy]. fold p.
  destruct (RagSearch.get_search_results C p) as [search_results|e]; [|reflexivity].
  exists (RagSearch.select_urls 0 6 [] search_results).
  rewrite M_bind_run, fetch_details_run. cbv zeta. cbn [fst snd].
  destruct (batch_fetch_urls_returns (RagSearch.session C)
              (RagSearch.select_urls 0 6 [] search_results)) as (details & Hb & _).
  rewrite Hb, <- app_assoc. split; [reflexivity|].
  rewrite select_urls_from, length_app, length_take. cbn. lia.
Qed.

(** Whenever Filter returns, a result none of the matches carries keeps
    its content, and a result carried by one or more matches gets as
    content the contents of its matches after the first, joined in match
    order. *)
Theorem filter_content_effect (C : RagSearch.collaborators)
    (search_results : list RagSearch.SearchResult) (query : string)
    (filter_min_score : Q) (filter_top_k : Z)
    (log : list RagSearch.event) (out : list RagSearch.SearchResult) :
  (RagSearch.filter_content C search_results query filter_min_score filter_top_k log).1
    = RagSearch.Returned out →
  ∃ index match_results,
    RagSearch.store_results C
      (filter (fun result => RagSearch.has_content result = true) search_results)
      = Return index
    ∧ RagSearch.query_results C index query filter_min_score filter_top_k
      = Return match_results
    ∧ Forall2 (fun r r' =>
                 RagSearch.content r' =
                 match filter (fun m => Match.uuid m = RagSearch.uuid r) match_results with
                 | [] => RagSearch.content r
                 | _ :: later => Some (joined (Match.content <$> later))
                 end) search_results out.
Proof.
  rewrite filter_content_run. cbv zeta.
  destruct (RagSearch.store_results C _) as [index|e]; [|discriminate].
  destruct (RagSearch.query_results C index _ _ _) as [match_results|e] eqn:Hquery;
    [|discriminate].
  cbn [fst]. intros [= <-].
  exists index, match_results. split; [reflexivity|]. split; [exact Hquery|].
  apply Forall2_fmap_r, Forall_Forall2_diag, Forall_forall. intros r _.
  unfold compose. cbv beta.
  pose proof (attach_fields (RagSearch.content_maps_of_matches match_results)
                RagSearch.uuid r) as (_ & _ & _ & _ & _ & Hcontent).
  rewrite Hcontent, content_maps_of_matches_lookup.
  destruct (filter _ match_results); reflexivity.
Qed.

Lemma filter_content_effect_witness :
  ∃ index match_results,
    RagSearch.store_results Sample.service
      (filter (fun result => RagSearch.has_content result = true)
         [Sample.fetched_hit; Sample.hit "1" "https://a" 0])
      = Return index
    ∧ RagSearch.query_results Sample.service index "who" 0.8 6 = Return match_results
    ∧ Forall2 (fun r r' =>
                 RagSearch.content r' =
                 match filter (fun m => Match.uuid m = RagSearch.uuid r) match_results with
                 | [] => RagSearch.content r
                 | _ :: later => Some (joined (Match.content <$> later))
                 end)
        [Sample.fetched_hit; Sample.hit "1" "https://a" 0]
        [RagSearch.set_content "" Sample.fetched_hit; Sample.hit "1" "https://a" 0].
Proof.
  apply (filter_content_effect Sample.service
           [Sample.fetched_hit; Sample.hit "1" "https://a" 0] "who" 0.8 6 []).
  vm_compute. reflexivity.
Defined.
